(** * OpenSandbox: a shallow embedding of the control-plane helpers

    The development follows the Python sources file by file:

    - [server/src/services/validators.py]            (module [Validators])
    - [server/src/services/k8s/egress_helper.py]     (module [EgressHelper])
    - [server/src/middleware/request_id.py]          (module [RequestId])
    - [server/src/services/sandbox_service.py]       (module [SandboxService])
    - [sdks/.../api/lifecycle/models/volume.py]      (module [Volume])
    - [sdks/.../converter/command_model_converter.py](module [CommandModelConverter])

    Python [str] values are embedded as [string]; a character is a code
    point below 256.  Exceptions are explicit: a function that may raise
    returns a [result].  Library behaviour the sources rely on (regular
    expressions, [datetime], [json], the socket calls) is embedded next to
    the function that uses it. *)

From stdpp Require Import gmap strings list.
From Stdlib Require Import ZArith Ascii String Lia Bool DecimalString.

Set Warnings "-register-all".
Local Open Scope string_scope.
Local Open Scope Z_scope.

(** ** Python runtime values *)

Module Py.

(** [src/services/constants.py] is not part of the sources at hand; the
    error codes are kept as the symbolic names the validators use. *)
Inductive SandboxErrorCodes :=
| INVALID_ENTRYPOINT
| INVALID_METADATA_LABEL
| INVALID_PORT
| INVALID_EXPIRATION.

(** [fastapi.HTTPException(status_code=..., detail={"code":..., "message":...})];
    [OverflowError] is what [datetime] arithmetic raises out of range. *)
Inductive exn :=
| HTTPException (status_code : Z) (code : SandboxErrorCodes) (message : string)
| OverflowError.

Inductive result (A : Type) :=
| Return (a : A)
| Raise (e : exn).
Arguments Return {A} a.
Arguments Raise {A} e.

(** Sequencing: the first exception raised ends the computation. *)
#[global] Instance result_bind : MBind result := fun A B k m =>
  match m with
  | Return a => k a
  | Raise e => Raise e
  end.

Definition HTTP_400_BAD_REQUEST : Z := 400.

(** [datetime.datetime]: the wall-clock reading in microseconds since
    0001-01-01T00:00:00 and, for an aware value, the UTC offset of its
    fixed-offset [tzinfo] in microseconds. *)
Record datetime := mk_datetime {
  wall : Z;
  tzinfo : option Z
}.

(** Dynamically typed values: what a [dict] or a DTO field may hold. *)
Inductive pyval :=
| PNone
| PBool (b : bool)
| PInt (n : Z)
| PStr (s : string)
| PList (l : list pyval)
| PDict (d : list (string * pyval)).

(** A [dict] literal keeps insertion order; [d[k]] finds the entry. *)
Fixpoint dict_get (k : string) (d : list (string * pyval)) : option pyval :=
  match d with
  | [] => None
  | (k', v) :: d' => if String.eqb k k' then Some v else dict_get k d'
  end.

Definition getitem (v : pyval) (k : string) : option pyval :=
  match v with
  | PDict d => dict_get k d
  | _ => None
  end.

Definition keys (v : pyval) : list string :=
  match v with
  | PDict d => map fst d
  | _ => []
  end.

End Py.
Import Py.

(** ** Regular expressions, as [re] matches them *)

Module Re.

Inductive regex :=
| Void
| Eps
| Class (p : ascii -> bool)
| Cat (r1 r2 : regex)
| Alt (r1 r2 : regex)
| Star (r : regex).

(** [r?] *)
Definition Opt (r : regex) : regex := Alt r Eps.

Fixpoint nullable (r : regex) : bool :=
  match r with
  | Void => false
  | Eps => true
  | Class _ => false
  | Cat r1 r2 => nullable r1 && nullable r2
  | Alt r1 r2 => nullable r1 || nullable r2
  | Star _ => true
  end.

Fixpoint deriv (c : ascii) (r : regex) : regex :=
  match r with
  | Void => Void
  | Eps => Void
  | Class p => if p c then Eps else Void
  | Cat r1 r2 =>
      if nullable r1
      then Alt (Cat (deriv c r1) r2) (deriv c r2)
      else Cat (deriv c r1) r2
  | Alt r1 r2 => Alt (deriv c r1) (deriv c r2)
  | Star r1 => Cat (deriv c r1) (Star r1)
  end.

(** The whole of [s] is matched by [r]. *)
Fixpoint fullmatch (r : regex) (s : string) : bool :=
  match s with
  | EmptyString => nullable r
  | String c s' => fullmatch (deriv c r) s'
  end.

(** [s] without its last character when that is a line feed. *)
Fixpoint chomp (s : string) : option string :=
  match s with
  | EmptyString => None
  | String c EmptyString => if Ascii.eqb c "010" then Some EmptyString else None
  | String c s' => option_map (String c) (chomp s')
  end.

(** [bool(re.compile("^" + r + "$").match(s))].  Without [re.MULTILINE],
    [^] is the start of the string and [$] is its end or the position
    just before a line feed that ends it. *)
Definition match_anchored (r : regex) (s : string) : bool :=
  fullmatch r s ||
  match chomp s with
  | Some s' => fullmatch r s'
  | None => false
  end.

(** The language of [r], read off the pattern. *)
Inductive lang : regex -> string -> Prop :=
| lang_eps : lang Eps ""
| lang_class p c : p c = true -> lang (Class p) (String c "")
| lang_cat r1 r2 s1 s2 : lang r1 s1 -> lang r2 s2 -> lang (Cat r1 r2) (s1 +:+ s2)
| lang_alt_l r1 r2 s : lang r1 s -> lang (Alt r1 r2) s
| lang_alt_r r1 r2 s : lang r2 s -> lang (Alt r1 r2) s
| lang_star_nil r : lang (Star r) ""
| lang_star_cons r s1 s2 : lang r s1 -> lang (Star r) s2 -> lang (Star r) (s1 +:+ s2).

(** Character classes of the label patterns. *)
Definition in_range (lo hi c : ascii) : bool :=
  (nat_of_ascii lo <=? nat_of_ascii c)%nat && (nat_of_ascii c <=? nat_of_ascii hi)%nat.

Definition is_char (x c : ascii) : bool := Ascii.eqb c x.

End Re.

(** ** [server/src/services/validators.py] *)

Module Validators.
Import Re.

Definition ensure_entrypoint (entrypoint : list string) : result unit :=
  match entrypoint with
  | [] => Raise (HTTPException HTTP_400_BAD_REQUEST INVALID_ENTRYPOINT
                   "Entrypoint must contain at least one command.")
  | _ => Return tt
  end.

(** [[a-z0-9]] *)
Definition lower_alnum (c : ascii) : bool :=
  in_range "a" "z" c || in_range "0" "9" c.
(** [[-a-z0-9]] *)
Definition lower_alnum_dash (c : ascii) : bool :=
  is_char "-" c || in_range "a" "z" c || in_range "0" "9" c.
(** [[A-Za-z0-9]] *)
Definition alnum (c : ascii) : bool :=
  in_range "A" "Z" c || in_range "a" "z" c || in_range "0" "9" c.
(** [[-A-Za-z0-9_.]] *)
Definition label_char (c : ascii) : bool :=
  is_char "-" c || in_range "A" "Z" c || in_range "a" "z" c ||
  in_range "0" "9" c || is_char "_" c || is_char "." c.

(** [DNS_LABEL_PATTERN = r"[a-z0-9]([-a-z0-9]*[a-z0-9])?"] *)
Definition DNS_LABEL_PATTERN : regex :=
  Cat (Class lower_alnum)
      (Opt (Cat (Star (Class lower_alnum_dash)) (Class lower_alnum))).

(** The pattern between [^] and [$] of each compiled expression. *)
Definition DNS_SUBDOMAIN_PATTERN : regex :=
  Cat (Star (Cat DNS_LABEL_PATTERN (Class (is_char ".")))) DNS_LABEL_PATTERN.
Definition LABEL_NAME_PATTERN : regex :=
  Cat (Class alnum) (Opt (Cat (Star (Class label_char)) (Class alnum))).
Definition LABEL_VALUE_PATTERN : regex := Opt LABEL_NAME_PATTERN.

Definition DNS_SUBDOMAIN_RE (s : string) : bool := match_anchored DNS_SUBDOMAIN_PATTERN s.
Definition LABEL_NAME_RE (s : string) : bool := match_anchored LABEL_NAME_PATTERN s.
Definition LABEL_VALUE_RE (s : string) : bool := match_anchored LABEL_VALUE_PATTERN s.

(** [key.split("/", 1)] when ["/" in key]: the text before the first
    slash and the text after it; [None] when there is no slash. *)
Fixpoint split_slash (key : string) : option (string * string) :=
  match key with
  | EmptyString => None
  | String c rest =>
      if Ascii.eqb c "/" then Some (EmptyString, rest)
      else match split_slash rest with
           | Some (prefix, name) => Some (String c prefix, name)
           | None => None
           end
  end.

Definition len (s : string) : Z := Z.of_nat (String.length s).

Definition is_empty (s : string) : bool :=
  match s with EmptyString => true | _ => false end.

Definition _is_valid_label_key (key : string) : bool :=
  if (253 <? len key) ||
     match split_slash key with
     | Some (prefix, _) => 253 <? len prefix
     | None => false
     end
  then false
  else
    match split_slash key with
    | Some (prefix, name) =>
        if is_empty prefix || is_empty name then false
        else if negb (DNS_SUBDOMAIN_RE prefix) then false
        else if (63 <? len name) || negb (LABEL_NAME_RE name) then false
        else true
    | None =>
        if (63 <? len key) || negb (LABEL_NAME_RE key) then false
        else true
    end.

Definition _is_valid_label_value (value : string) : bool :=
  if 63 <? len value then false
  else LABEL_VALUE_RE value.

Definition invalid_label (message : string) : exn :=
  HTTPException HTTP_400_BAD_REQUEST INVALID_METADATA_LABEL message.

(** One turn of the loop over [metadata.items()]. *)
Definition check_item (item : pyval * pyval) : result unit :=
  match item with
  | (PStr key, PStr value) =>
      if negb (_is_valid_label_key key) then
        Raise (invalid_label
                 ("Metadata key '" +:+ key +:+ "' is not a valid Kubernetes label key."))
      else if negb (_is_valid_label_value value) then
        Raise (invalid_label
                 ("Metadata value '" +:+ value +:+ "' is not a valid Kubernetes label value."))
      else Return tt
  | _ => Raise (invalid_label "Metadata keys and values must be strings.")
  end.

Fixpoint check_items (items : list (pyval * pyval)) : result unit :=
  match items with
  | [] => Return tt
  | item :: rest => check_item item ;; check_items rest
  end.

(** [metadata] is [None] or a dict, given by its items in iteration
    order; keys and values are arbitrary objects at run time. *)
Definition ensure_metadata_labels (metadata : option (list (pyval * pyval))) : result unit :=
  match metadata with
  | None => Return tt
  | Some [] => Return tt
  | Some items => check_items items
  end.

(** [datetime.min] and [datetime.max] as wall-clock microseconds:
    0001-01-01T00:00:00 and 9999-12-31T23:59:59.999999. *)
Definition DATETIME_MIN : Z := 0.
Definition DATETIME_MAX : Z := 3652059 * 86400 * 1000000 - 1.

Definition representable (w : Z) : bool := (DATETIME_MIN <=? w) && (w <=? DATETIME_MAX).

(** [timezone.utc] *)
Definition utc : Z := 0.

(** [d.replace(tzinfo=timezone.utc)] *)
Definition replace_tzinfo_utc (d : datetime) : datetime :=
  {| wall := wall d; tzinfo := Some utc |}.

(** [d.astimezone(timezone.utc)] for an aware [d] with offset [off]:
    [(d - off)] relabelled as UTC; the subtraction raises
    [OverflowError] when it leaves the supported years. *)
Definition astimezone_utc (d : datetime) (off : Z) : result datetime :=
  let w := wall d - off in
  if representable w then Return {| wall := w; tzinfo := Some utc |}
  else Raise OverflowError.

(** [a <= b] on aware values compares the instants. *)
Definition instant (d : datetime) : Z :=
  match tzinfo d with
  | Some off => wall d - off
  | None => wall d
  end.
Definition datetime_le (a b : datetime) : bool := instant a <=? instant b.

(** [now] is the reading of [datetime.now(timezone.utc)]. *)
Definition ensure_future_expiration (now : datetime) (expires_at : datetime) : result datetime :=
  normalized ← match tzinfo expires_at with
               | None => Return (replace_tzinfo_utc expires_at)
               | Some off => astimezone_utc expires_at off
               end;
  if datetime_le normalized now then
    Raise (HTTPException HTTP_400_BAD_REQUEST INVALID_EXPIRATION
             "New expiration time must be in the future.")
  else Return normalized.

Definition ensure_valid_port (port : Z) : result unit :=
  if (port <? 1) || (65535 <? port) then
    Raise (HTTPException HTTP_400_BAD_REQUEST INVALID_PORT
             "Port must be between 1 and 65535.")
  else Return tt.

End Validators.

(** ** [json.dumps] and [json.loads] *)

Module Json.

Definition dquote : ascii := "034".
Definition backslash : ascii := "092".

Definition hex_digit (n : N) : ascii :=
  if (n <? 10)%N then ascii_of_N (48 + n) else ascii_of_N (87 + n).

(** [ESCAPE_DCT] and the ["\\u{0:04x}"] fallback of
    [py_encode_basestring_ascii], for one character. *)
Definition escape_char (c : ascii) : string :=
  if Ascii.eqb c dquote then String backslash (String dquote "")
  else if Ascii.eqb c backslash then String backslash (String backslash "")
  else if Ascii.eqb c "010" then String backslash "n"
  else if Ascii.eqb c "013" then String backslash "r"
  else if Ascii.eqb c "009" then String backslash "t"
  else if Ascii.eqb c "008" then String backslash "b"
  else if Ascii.eqb c "012" then String backslash "f"
  else if Re.in_range " " "~" c then String c ""
  else
    let n := N_of_ascii c in
    String backslash
      (String "u" (String "0" (String "0"
        (String (hex_digit (n / 16)) (String (hex_digit (n mod 16)) ""))))).

Fixpoint escape (s : string) : string :=
  match s with
  | EmptyString => EmptyString
  | String c s' => escape_char c +:+ escape s'
  end.

Definition encode_basestring_ascii (s : string) : string :=
  String dquote (escape s +:+ String dquote "").

(** [json.dumps(obj)] with the default separators [", "] and [": "]. *)
Fixpoint dumps (obj : pyval) : string :=
  match obj with
  | PNone => "null"
  | PBool true => "true"
  | PBool false => "false"
  | PInt n => NilZero.string_of_int (Z.to_int n)
  | PStr s => encode_basestring_ascii s
  | PList l => "[" +:+ String.concat ", " (map dumps l) +:+ "]"
  | PDict d =>
      "{" +:+
      String.concat ", "
        (map (fun kv => encode_basestring_ascii (fst kv) +:+ ": " +:+ dumps (snd kv)) d)
      +:+ "}"
  end.

(** The decoder. *)
Definition is_ws (c : ascii) : bool :=
  Ascii.eqb c " " || Ascii.eqb c "009" || Ascii.eqb c "010" || Ascii.eqb c "013".

Fixpoint skip_ws (s : string) : string :=
  match s with
  | EmptyString => EmptyString
  | String c s' => if is_ws c then skip_ws s' else s
  end.

Definition hex_value (c : ascii) : option N :=
  let n := N_of_ascii c in
  if Re.in_range "0" "9" c then Some (n - 48)%N
  else if Re.in_range "a" "f" c then Some (n - 87)%N
  else if Re.in_range "A" "F" c then Some (n - 55)%N
  else None.

Definition hex4 (h1 h2 h3 h4 : ascii) : option N :=
  match hex_value h1, hex_value h2, hex_value h3, hex_value h4 with
  | Some a, Some b, Some c, Some d => Some (((a * 16 + b) * 16 + c) * 16 + d)%N
  | _, _, _, _ => None
  end.

(** [BACKSLASH] of [json.decoder] *)
Definition unescape (e : ascii) : option ascii :=
  if Ascii.eqb e dquote then Some dquote
  else if Ascii.eqb e backslash then Some backslash
  else if Ascii.eqb e "/" then Some "/"%char
  else if Ascii.eqb e "b" then Some "008"%char
  else if Ascii.eqb e "f" then Some "012"%char
  else if Ascii.eqb e "n" then Some "010"%char
  else if Ascii.eqb e "r" then Some "013"%char
  else if Ascii.eqb e "t" then Some "009"%char
  else None.

Definition cons_char (c : ascii) (r : option (string * string)) : option (string * string) :=
  match r with
  | Some (s, rest) => Some (String c s, rest)
  | None => None
  end.

(** [py_scanstring] in strict mode, from just after the opening quote:
    the decoded text and the input after the closing quote.  A [\u]
    escape above code point 255 has no character in this embedding and
    is refused. *)
Fixpoint scanstring (s : string) : option (string * string) :=
  match s with
  | EmptyString => None
  | String c s' =>
      if Ascii.eqb c dquote then Some (EmptyString, s')
      else if Ascii.eqb c backslash then
        match s' with
        | EmptyString => None
        | String e s'' =>
            if Ascii.eqb e "u" then
              match s'' with
              | String h1 (String h2 (String h3 (String h4 s3))) =>
                  match hex4 h1 h2 h3 h4 with
                  | Some n =>
                      if (n <? 256)%N then cons_char (ascii_of_N n) (scanstring s3)
                      else None
                  | None => None
                  end
              | _ => None
              end
            else
              match unescape e with
              | Some ch => cons_char ch (scanstring s'')
              | None => None
              end
        end
      else if (N_of_ascii c <? 32)%N then None
      else cons_char c (scanstring s')
  end.

Fixpoint strip_prefix (p s : string) : option string :=
  match p, s with
  | EmptyString, _ => Some s
  | String a p', String b s' => if Ascii.eqb a b then strip_prefix p' s' else None
  | String _ _, EmptyString => None
  end.

Definition is_digit (c : ascii) : bool := Re.in_range "0" "9" c.

(** The longest run of digits at the start of [s], and what follows. *)
Fixpoint span_digits (s : string) : string * string :=
  match s with
  | String c s' =>
      if is_digit c then let '(ds, rest) := span_digits s' in (String c ds, rest)
      else (EmptyString, s)
  | EmptyString => (EmptyString, EmptyString)
  end.

Definition digits_value (ds : string) : Z :=
  fold_left (fun acc c => acc * 10 + (Z.of_N (N_of_ascii c) - 48))
            (list_ascii_of_string ds) 0.

(** An integer literal: an optional minus sign, then a lone zero or a
    run of digits that does not start with zero, not followed by a
    fraction or an exponent; floating-point numbers are outside the
    embedding. *)
Definition scan_int (s : string) : option (Z * string) :=
  let '(neg, s1) := match s with
                    | String c s' => if Ascii.eqb c "-" then (true, s') else (false, s)
                    | EmptyString => (false, s)
                    end in
  let '(ds, rest) := span_digits s1 in
  match ds with
  | EmptyString => None
  | String d ds' =>
      if Ascii.eqb d "0" && negb (Validators.is_empty ds') then None
      else
        match rest with
        | String c _ =>
            if Ascii.eqb c "." || Ascii.eqb c "e" || Ascii.eqb c "E" then None
            else Some (if neg then - digits_value ds else digits_value ds, rest)
        | EmptyString => Some (if neg then - digits_value ds else digits_value ds, rest)
        end
  end.

(** [d[k] = v] on a dict given by its items. *)
Fixpoint dict_set (k : string) (v : pyval) (d : list (string * pyval)) : list (string * pyval) :=
  match d with
  | [] => [(k, v)]
  | (k', v') :: d' => if String.eqb k k' then (k, v) :: d' else (k', v') :: dict_set k v d'
  end.

Definition dict_of_pairs (pairs : list (string * pyval)) : list (string * pyval) :=
  fold_left (fun d kv => dict_set (fst kv) (snd kv) d) pairs [].

(** [JSONDecoder.raw_decode]: one value at the start of [s] and the
    rest of the input.  Each call spends one unit of [fuel]. *)
Fixpoint scan_once (fuel : nat) (s : string) : option (pyval * string) :=
  match fuel with
  | O => None
  | S fuel' =>
      match s with
      | EmptyString => None
      | String c s' =>
          if Ascii.eqb c dquote then
            match scanstring s' with
            | Some (str, rest) => Some (PStr str, rest)
            | None => None
            end
          else if Ascii.eqb c "[" then
            match skip_ws s' with
            | EmptyString => None
            | String c1 s1 =>
                if Ascii.eqb c1 "]" then Some (PList [], s1)
                else
                  match scan_items fuel' (String c1 s1) with
                  | Some (l, rest) => Some (PList l, rest)
                  | None => None
                  end
            end
          else if Ascii.eqb c "{" then
            match skip_ws s' with
            | EmptyString => None
            | String c1 s1 =>
                if Ascii.eqb c1 "}" then Some (PDict [], s1)
                else
                  match scan_pairs fuel' (String c1 s1) with
                  | Some (pairs, rest) => Some (PDict (dict_of_pairs pairs), rest)
                  | None => None
                  end
            end
          else if Ascii.eqb c "n" then
            option_map (pair PNone) (strip_prefix "null" s)
          else if Ascii.eqb c "t" then
            option_map (pair (PBool true)) (strip_prefix "true" s)
          else if Ascii.eqb c "f" then
            option_map (pair (PBool false)) (strip_prefix "false" s)
          else
            match scan_int s with
            | Some (n, rest) => Some (PInt n, rest)
            | None => None
            end
      end
  end
(** The elements of an array after its first bracket, up to and
    including the closing bracket. *)
with scan_items (fuel : nat) (s : string) : option (list pyval * string) :=
  match fuel with
  | O => None
  | S fuel' =>
      match scan_once fuel' s with
      | None => None
      | Some (v, s1) =>
          match skip_ws s1 with
          | EmptyString => None
          | String c s2 =>
              if Ascii.eqb c "," then
                match scan_items fuel' (skip_ws s2) with
                | Some (l, rest) => Some (v :: l, rest)
                | None => None
                end
              else if Ascii.eqb c "]" then Some ([v], s2)
              else None
          end
      end
  end
(** The members of an object, up to and including the closing brace. *)
with scan_pairs (fuel : nat) (s : string) : option (list (string * pyval) * string) :=
  match fuel with
  | O => None
  | S fuel' =>
      match s with
      | EmptyString => None
      | String q s0 =>
          if negb (Ascii.eqb q dquote) then None
          else
            match scanstring s0 with
            | None => None
            | Some (key, s1) =>
                match skip_ws s1 with
                | EmptyString => None
                | String colon s2 =>
                    if negb (Ascii.eqb colon ":") then None
                    else
                      match scan_once fuel' (skip_ws s2) with
                      | None => None
                      | Some (v, s3) =>
                          match skip_ws s3 with
                          | EmptyString => None
                          | String c s4 =>
                              if Ascii.eqb c "," then
                                match scan_pairs fuel' (skip_ws s4) with
                                | Some (l, rest) => Some ((key, v) :: l, rest)
                                | None => None
                                end
                              else if Ascii.eqb c "}" then Some ([(key, v)], s4)
                              else None
                          end
                      end
                end
            end
      end
  end.

(** [json.loads(s)]: one value, surrounded by optional white space and
    nothing else.  No value nests or repeats more often than the input
    has characters, so its length is fuel enough. *)
Definition loads (s : string) : option pyval :=
  match scan_once (S (String.length s)) (skip_ws s) with
  | Some (v, rest) =>
      match skip_ws rest with
      | EmptyString => Some v
      | String _ _ => None
      end
  | None => None
  end.

End Json.

(** ** [server/src/services/k8s/egress_helper.py] *)

Module EgressHelper.

(** Modelled from the spec: [NetworkRule] and [NetworkPolicy] of
    [src/api/schema.py], which is not among the sources.  A rule is
    [{action, target}]; a policy is an optional [default_action] with
    the alias [defaultAction] and an ordered list of rules, [egress]. *)
Record NetworkRule := {
  action : string;
  target : string
}.

Record NetworkPolicy := {
  default_action : option string;
  egress : list NetworkRule
}.

Definition NetworkRule_model_dump (r : NetworkRule) : pyval :=
  PDict [("action", PStr (action r)); ("target", PStr (target r))].

(** [network_policy.model_dump(by_alias=True, exclude_none=True)] *)
Definition model_dump (p : NetworkPolicy) : pyval :=
  PDict
    (match default_action p with
     | Some a => [("defaultAction", PStr a)]
     | None => []
     end ++
     [("egress", PList (map NetworkRule_model_dump (egress p)))]).

Definition EGRESS_RULES_ENV : string := "OPENSANDBOX_EGRESS_RULES".

Definition _build_security_context_for_egress : pyval :=
  PDict [("capabilities", PDict [("add", PList [PStr "NET_ADMIN"])])].

Definition build_egress_sidecar_container
    (egress_image : string) (network_policy : NetworkPolicy) : pyval :=
  let policy_payload := Json.dumps (model_dump network_policy) in
  PDict [("name", PStr "egress");
         ("image", PStr egress_image);
         ("env", PList [PDict [("name", PStr EGRESS_RULES_ENV);
                               ("value", PStr policy_payload)]]);
         ("securityContext", _build_security_context_for_egress)].

Definition build_security_context_for_main_container (has_network_policy : bool) : pyval :=
  if negb has_network_policy then PDict []
  else PDict [("capabilities", PDict [("drop", PList [PStr "NET_ADMIN"])])].

Definition build_ipv6_disable_sysctls : list pyval :=
  [PDict [("name", PStr "net.ipv6.conf.all.disable_ipv6"); ("value", PStr "1")];
   PDict [("name", PStr "net.ipv6.conf.default.disable_ipv6"); ("value", PStr "1")];
   PDict [("name", PStr "net.ipv6.conf.lo.disable_ipv6"); ("value", PStr "1")]].

End EgressHelper.

(** ** [server/src/middleware/request_id.py] *)

Module RequestId.

Definition X_REQUEST_ID_HEADER : string := "X-Request-ID".

(** [str.isspace] on one character (code points below 256). *)
Definition isspace (c : ascii) : bool :=
  Re.in_range "009" "013" c || Re.in_range "028" "032" c ||
  Ascii.eqb c "133" || Ascii.eqb c "160".

Fixpoint lstrip (s : string) : string :=
  match s with
  | EmptyString => EmptyString
  | String c s' => if isspace c then lstrip s' else s
  end.

Fixpoint rstrip (s : string) : string :=
  match s with
  | EmptyString => EmptyString
  | String c s' =>
      match rstrip s' with
      | EmptyString => if isspace c then EmptyString else String c EmptyString
      | String _ _ as r => String c r
      end
  end.

(** [s.strip()] *)
Definition strip (s : string) : string := rstrip (lstrip s).

(** [n]'s [i]-th hexadecimal digit, counted from the least significant. *)
Definition nibble (n : N) (i : nat) : N := N.land (N.shiftr n (4 * N.of_nat i)) 15.

(** ['%0<width>x' % n] for [n] below [16 ^ width]. *)
Fixpoint hex_fixed (width : nat) (n : N) : string :=
  match width with
  | O => EmptyString
  | S w => String (Json.hex_digit (nibble n w)) (hex_fixed w n)
  end.

(** [uuid.uuid4()] on the integer [r] read from [os.urandom(16)]:
    the variant bits become [10] and the version nibble becomes 4. *)
Definition uuid4 (r : N) : N :=
  let int := N.ldiff r (N.shiftl 49152 48) in
  let int := N.lor int (N.shiftl 32768 48) in
  let int := N.ldiff int (N.shiftl 61440 64) in
  N.lor int (N.shiftl 4 76).

(** [uuid.uuid4().hex] *)
Definition uuid4_hex (r : N) : string := hex_fixed 32 (uuid4 r).

(** [str.lower] on one character. *)
Definition lower_char (c : ascii) : ascii :=
  if Re.in_range "A" "Z" c || Re.in_range "192" "214" c || Re.in_range "216" "222" c
  then ascii_of_nat (nat_of_ascii c + 32)
  else c.

Fixpoint lower (s : string) : string :=
  match s with
  | EmptyString => EmptyString
  | String c s' => String (lower_char c) (lower s')
  end.

(** Starlette keeps the raw header list, names in lower case. *)
Definition Headers := list (string * string).

(** [Headers.get(key)]: the value of the first header of that name. *)
Fixpoint headers_find (get_header_key : string) (l : Headers) : option string :=
  match l with
  | [] => None
  | (header_key, header_value) :: l' =>
      if String.eqb header_key get_header_key then Some header_value
      else headers_find get_header_key l'
  end.

Definition headers_get (key : string) (l : Headers) : option string :=
  headers_find (lower key) l.

(** [MutableHeaders.__setitem__]: the first header of that name takes
    the value and later ones are removed; a new name is appended. *)
Fixpoint headers_remove (set_key : string) (l : Headers) : Headers :=
  match l with
  | [] => []
  | (k, v) :: l' =>
      if String.eqb k set_key then headers_remove set_key l'
      else (k, v) :: headers_remove set_key l'
  end.

Fixpoint headers_replace (set_key set_value : string) (l : Headers) : Headers :=
  match l with
  | [] => [(set_key, set_value)]
  | (k, v) :: l' =>
      if String.eqb k set_key then (set_key, set_value) :: headers_remove set_key l'
      else (k, v) :: headers_replace set_key set_value l'
  end.

Definition headers_set (key value : string) (l : Headers) : Headers :=
  headers_replace (lower key) value l.

Record Request := {
  request_headers : Headers;
  request_body : string
}.

Record Response := {
  response_status : Z;
  response_headers : Headers;
  response_body : string
}.

(** The value of [request_id_ctx] in the current context. *)
Definition Context := option string.

Definition get_request_id (ctx : Context) : option string := ctx.

Definition truthy (s : string) : bool := negb (Validators.is_empty s).

(** [(raw and raw.strip()) or uuid.uuid4().hex]; [r] is the integer the
    generator would draw. *)
Definition request_id_of (raw : option string) (r : N) : string :=
  match raw with
  | Some raw =>
      if truthy raw && truthy (strip raw) then strip raw else uuid4_hex r
  | None => uuid4_hex r
  end.

(** [RequestIdMiddleware.dispatch].  [call_next] runs the rest of the
    application in the context it is given; the result is the response
    or the exception that leaves [dispatch], and the context after the
    [finally] clause. *)
Definition dispatch (r : N) (request : Request)
    (call_next : Request -> Context -> result Response)
    (ctx : Context) : result Response * Context :=
  let raw := headers_get X_REQUEST_ID_HEADER (request_headers request) in
  let request_id := request_id_of raw r in
  let token := ctx in
  let ctx' : Context := Some request_id in
  match call_next request ctx' with
  | Return response =>
      (Return {| response_status := response_status response;
                 response_headers :=
                   headers_set X_REQUEST_ID_HEADER request_id (response_headers response);
                 response_body := response_body response |},
       token)
  | Raise e => (Raise e, token)
  end.

(** [logging.LogRecord]: the attribute [request_id] is absent until a
    filter sets it. *)
Record LogRecord := {
  record_msg : string;
  record_request_id : option string
}.

(** [RequestIdFilter.filter]: the verdict and the record as left. *)
Definition filter (ctx : Context) (record : LogRecord) : bool * LogRecord :=
  let rid := get_request_id ctx in
  (true,
   {| record_msg := record_msg record;
      record_request_id :=
        Some (match rid with
              | Some rid => if truthy rid then rid else "-"
              | None => "-"
              end) |}).

End RequestId.

(** ** [server/src/services/sandbox_service.py] *)

Module SandboxService.

Inductive AddressFamily := AF_INET | AF_INET6.

Definition is_inet6 (family : AddressFamily) : bool :=
  match family with AF_INET6 => true | AF_INET => false end.

(** What the operating system answers. *)
Inductive os_answer (A : Type) :=
| Answer (a : A)
| OSError.
Arguments Answer {A} a.
Arguments OSError {A}.

(** The network as the resolver sees it: [udp_local_address family target]
    is [sock.getsockname()[0]] after a datagram socket of that family is
    connected to [target]; [getaddrinfo family] is the list of
    [info[4][0]] for [socket.getaddrinfo(socket.gethostname(), None,
    family, SOCK_DGRAM)]. *)
Record Network := {
  udp_local_address : AddressFamily -> string * Z -> os_answer string;
  getaddrinfo : AddressFamily -> os_answer (list string)
}.

Definition startswith (s p : string) : bool := String.prefix p s.

Definition probe_target (family : AddressFamily) : string * Z :=
  if is_inet6 family then ("2001:4860:4860::8888", 80) else ("8.8.8.8", 80).

(** The second [try] block and the final [return]. *)
Definition hostname_fallback (net : Network) (family : AddressFamily) : string :=
  let family_name := if is_inet6 family then AF_INET6 else AF_INET in
  let localhost := if is_inet6 family then "::1" else "127.0.0.1" in
  match getaddrinfo net family_name with
  | Answer (addr :: _) => if RequestId.truthy addr then addr else localhost
  | Answer [] => localhost
  | OSError => localhost
  end.

(** The body of [_resolve_bind_ip], with the recursive call as [self]. *)
Definition resolve_body (net : Network) (self : AddressFamily -> string)
    (family : AddressFamily) : string :=
  let target := probe_target family in
  match udp_local_address net family target with
  | Answer ip =>
      if RequestId.truthy ip && (negb (is_inet6 family) || negb (startswith ip "fe80"))
      then ip
      else hostname_fallback net family
  | OSError =>
      if is_inet6 family then self AF_INET
      else hostname_fallback net family
  end.

(** [SandboxService._resolve_bind_ip]: the recursive call is made with
    [AF_INET], whose body makes none. *)
Definition _resolve_bind_ip (net : Network) (family : AddressFamily) : string :=
  resolve_body net (resolve_body net (fun _ => "127.0.0.1")) family.

(** [str(uuid)]: the 32 hexadecimal digits in groups of 8, 4, 4, 4 and
    12, joined by hyphens. *)
Definition uuid_str (hex : string) : string :=
  String.substring 0 8 hex +:+ "-" +:+ String.substring 8 4 hex +:+ "-" +:+
  String.substring 12 4 hex +:+ "-" +:+ String.substring 16 4 hex +:+ "-" +:+
  String.substring 20 12 hex.

(** [SandboxService.generate_sandbox_id]: [str(uuid4())], on the integer
    [r] the generator draws. *)
Definition generate_sandbox_id (r : N) : string :=
  uuid_str (RequestId.hex_fixed 32 (RequestId.uuid4 r)).

(** [SandboxService.validate_port] *)
Definition validate_port (port : Z) : result unit :=
  Validators.ensure_valid_port port.

End SandboxService.

(** ** [opensandbox/api/lifecycle/models/volume.py] *)

Module Volume.

(** [Host | Unset], [bool | Unset], ...: the sentinel [UNSET] or a value. *)
Inductive Unset_or (T : Type) :=
| UNSET
| Given (x : T).
Arguments UNSET {T}.
Arguments Given {T} x.

Section WithBackends.

(** [models/host.py] and [models/pvc.py] are not among the sources:
    the two backend classes and their [to_dict] and [from_dict] are
    parameters.  [from_dict] fails on a dict it cannot read. *)
Variables Host PVC : Type.
Variable Host_to_dict : Host -> pyval.
Variable Host_from_dict : pyval -> option Host.
Variable PVC_to_dict : PVC -> pyval.
Variable PVC_from_dict : pyval -> option PVC.

Record Volume := {
  name : string;
  mount_path : string;
  host : Unset_or Host;
  pvc : Unset_or PVC;
  read_only : Unset_or bool;
  sub_path : Unset_or string
}.

(** [if x is not UNSET: field_dict[key] = x] *)
Definition set_unless_unset (key : string) (x : Unset_or pyval)
    (field_dict : gmap string pyval) : gmap string pyval :=
  match x with
  | UNSET => field_dict
  | Given v => <[key := v]> field_dict
  end.

Definition fmap_unset {A B} (f : A -> B) (x : Unset_or A) : Unset_or B :=
  match x with
  | UNSET => UNSET
  | Given a => Given (f a)
  end.

Definition to_dict (self : Volume) : gmap string pyval :=
  let name := name self in
  let mount_path := mount_path self in
  let host := fmap_unset Host_to_dict (host self) in
  let pvc := fmap_unset PVC_to_dict (pvc self) in
  let read_only := fmap_unset PBool (read_only self) in
  let sub_path := fmap_unset PStr (sub_path self) in
  let field_dict : gmap string pyval := ∅ in
  let field_dict := <["mountPath" := PStr mount_path]> (<["name" := PStr name]> field_dict) in
  let field_dict := set_unless_unset "host" host field_dict in
  let field_dict := set_unless_unset "pvc" pvc field_dict in
  let field_dict := set_unless_unset "readOnly" read_only field_dict in
  let field_dict := set_unless_unset "subPath" sub_path field_dict in
  field_dict.

(** [d.pop(key)]: the value, or [KeyError], and the dict without it. *)
Definition pop (key : string) (d : gmap string pyval) : option (pyval * gmap string pyval) :=
  match d !! key with
  | Some v => Some (v, delete key d)
  | None => None
  end.

(** [d.pop(key, UNSET)] *)
Definition pop_default (key : string) (d : gmap string pyval)
    : Unset_or pyval * gmap string pyval :=
  match d !! key with
  | Some v => (Given v, delete key d)
  | None => (UNSET, d)
  end.

(** Reading an attribute of a declared type out of a dict value; a
    value of another type has no counterpart in [Volume]. *)
Definition as_str (v : pyval) : option string :=
  match v with PStr s => Some s | _ => None end.
Definition as_bool (v : pyval) : option bool :=
  match v with PBool b => Some b | _ => None end.

Definition read_unset {A} (f : pyval -> option A) (x : Unset_or pyval)
    : option (Unset_or A) :=
  match x with
  | UNSET => Some UNSET
  | Given v => Given <$> f v
  end.

(** [Volume.from_dict]; [None] stands for the exception of a missing
    key or of a backend's [from_dict]. *)
Definition from_dict (src_dict : gmap string pyval) : option Volume :=
  let d := src_dict in
  '(name, d) ← pop "name" d;
  name ← as_str name;
  '(mount_path, d) ← pop "mountPath" d;
  mount_path ← as_str mount_path;
  let '(_host, d) := pop_default "host" d in
  host ← read_unset Host_from_dict _host;
  let '(_pvc, d) := pop_default "pvc" d in
  pvc ← read_unset PVC_from_dict _pvc;
  let '(read_only, d) := pop_default "readOnly" d in
  read_only ← read_unset as_bool read_only;
  let '(sub_path, d) := pop_default "subPath" d in
  sub_path ← read_unset as_str sub_path;
  Some {| name := name; mount_path := mount_path; host := host; pvc := pvc;
          read_only := read_only; sub_path := sub_path |}.

(** [Volume(name=..., mount_path=...)]: the attributes left out take
    their class defaults, [read_only] being [False]. *)
Definition init (name mount_path : string) : Volume :=
  {| name := name; mount_path := mount_path; host := UNSET; pvc := UNSET;
     read_only := Given false; sub_path := UNSET |}.

End WithBackends.

End Volume.

(** ** [opensandbox/adapters/converter/command_model_converter.py] *)

Module CommandModelConverter.

(** What an attribute of the wire model may hold: the [Unset] sentinel,
    [None], or a value of the attribute's type. *)
Inductive attr :=
| AUnset
| ANone
| AStr (s : string)
| ABool (b : bool)
| AInt (n : Z)
| ADatetime (d : datetime).

(** [isinstance(value, Unset)] *)
Definition is_Unset (value : attr) : bool :=
  match value with AUnset => true | _ => false end.

Record CommandStatusResponse := {
  raw_id : attr;
  raw_content : attr;
  raw_running : attr;
  raw_exit_code : attr;
  raw_error : attr;
  raw_started_at : attr;
  raw_finished_at : attr
}.

Record CommandStatus := {
  id : attr;
  content : attr;
  running : attr;
  exit_code : attr;
  error : attr;
  started_at : attr;
  finished_at : attr
}.

Definition _unwrap_optional (value : attr) : attr :=
  if is_Unset value then ANone else value.

Definition to_command_status (raw : CommandStatusResponse) : CommandStatus :=
  {| id := _unwrap_optional (raw_id raw);
     content := _unwrap_optional (raw_content raw);
     running := _unwrap_optional (raw_running raw);
     exit_code := _unwrap_optional (raw_exit_code raw);
     error := _unwrap_optional (raw_error raw);
     started_at := _unwrap_optional (raw_started_at raw);
     finished_at := _unwrap_optional (raw_finished_at raw) |}.

End CommandModelConverter.

(** * Specification-level definitions

    What the properties below are stated with: the reading of each
    requirement, and the concrete inputs the examples use. *)

Import Validators EgressHelper CommandModelConverter.

(** ** Expiration *)

Definition INVALID_EXPIRATION_error : exn :=
  HTTPException 400 INVALID_EXPIRATION "New expiration time must be in the future.".

(** The wall-clock reading of [t] brought to UTC: a naive [t] is read as
    UTC, an aware [t] keeps its instant. *)
Definition to_utc (t : datetime) : datetime :=
  {| wall := match tzinfo t with
             | None => wall t
             | Some off => wall t - off
             end;
     tzinfo := Some utc |}.

(** 9999-12-31T23:59:59.999999-01:00, an hour before which UTC has
    already left year 9999. *)
Definition last_moment_west : datetime :=
  {| wall := DATETIME_MAX; tzinfo := Some (- 3600 * 1000000) |}.

(** 2026-01-01T00:00:00+00:00 *)
Definition new_year_2026 : datetime :=
  {| wall := 739616 * 86400 * 1000000; tzinfo := Some utc |}.

(** ** Command status conversion *)

(** What the converter does to one attribute: the sentinel becomes
    [None], anything else stays as it is. *)
Definition unwrapped (wire domain : attr) : Prop :=
  (wire = AUnset -> domain = ANone) /\ (wire <> AUnset -> domain = wire).

(** ** Metadata labels *)

Import Re.

(** The character [c] occurs in [s]. *)
Fixpoint contains (c : ascii) (s : string) : bool :=
  match s with
  | EmptyString => false
  | String a s' => Ascii.eqb a c || contains c s'
  end.

Definition line_feed : ascii := "010".

(** The label-key rule as the specification words it: split on the first
    slash; the prefix, when there is one, is a non-empty DNS subdomain of
    at most 253 characters; the name part has at most 63 characters and
    matches the name pattern. *)
Definition spec_valid_key (key : string) : Prop :=
  match split_slash key with
  | Some (prefix, name) =>
      prefix <> "" /\ len prefix <= 253 /\ lang DNS_SUBDOMAIN_PATTERN prefix /\
      len name <= 63 /\ lang LABEL_NAME_PATTERN name
  | None => len key <= 63 /\ lang LABEL_NAME_PATTERN key
  end.

(** The label-value rule: at most 63 characters, empty or matching the
    name pattern. *)
Definition spec_valid_value (value : string) : Prop :=
  len value <= 63 /\ (value = "" \/ lang LABEL_NAME_PATTERN value).

(** A mapping of strings to strings, as the objects the validator sees. *)
Definition str_items (m : list (string * string)) : list (pyval * pyval) :=
  map (fun kv => (PStr (fst kv), PStr (snd kv))) m.

Definition is_str (v : pyval) : bool :=
  match v with PStr _ => true | _ => false end.

Definition raises_invalid_label (r : result unit) : Prop :=
  exists message, r = Raise (HTTPException 400 INVALID_METADATA_LABEL message).

(** [n] copies of [c]. *)
Fixpoint repeat_char (c : ascii) (n : nat) : string :=
  match n with
  | O => EmptyString
  | S n' => String c (repeat_char c n')
  end.

(** A prefix of 253 characters, a slash and a one-letter name. *)
Definition long_prefix_key : string := repeat_char "a" 253 +:+ "/a".

(** ** Bind-IP resolution *)

Import SandboxService.



(** A host with both stacks up: the IPv6 probe answers a global address,
    the IPv4 probe a private one. *)
Definition dual_stack : Network :=
  {| udp_local_address := fun family _ =>
       match family with
       | AF_INET6 => Answer "2001:db8::1"
       | AF_INET => Answer "10.0.0.5"
       end;
     getaddrinfo := fun _ => OSError |}.

(** A host whose IPv6 probe answers a link-local address and whose name
    resolves to that same address. *)
Definition link_local_only : Network :=
  {| udp_local_address := fun _ _ => Answer "fe80::1";
     getaddrinfo := fun _ => Answer ["fe80::1"] |}.

(** ** Request identifiers *)

Import RequestId.

(** [[0-9a-f]] *)
Definition is_hex_char (c : ascii) : bool := in_range "0" "9" c || in_range "a" "f" c.

Fixpoint all_chars (p : ascii -> bool) (s : string) : bool :=
  match s with
  | EmptyString => true
  | String c s' => p c && all_chars p s'
  end.

(** ** Volumes *)

(** Stand-ins for the two backend models: a host path and a claim name,
    each with its one-key dict. *)
Record HostPath := { path : string }.
Record Claim := { claim_name : string }.

Definition HostPath_to_dict (h : HostPath) : pyval := PDict [("path", PStr (path h))].
Definition HostPath_from_dict (d : pyval) : option HostPath :=
  match getitem d "path" with
  | Some (PStr s) => Some {| path := s |}
  | _ => None
  end.

Definition Claim_to_dict (c : Claim) : pyval := PDict [("claimName", PStr (claim_name c))].
Definition Claim_from_dict (d : pyval) : option Claim :=
  match getitem d "claimName" with
  | Some (PStr s) => Some {| claim_name := s |}
  | _ => None
  end.

Definition data_volume : Volume.Volume HostPath Claim :=
  {| Volume.name := "data";
     Volume.mount_path := "/mnt/data";
     Volume.host := Volume.UNSET;
     Volume.pvc := Volume.Given {| claim_name := "shared" |};
     Volume.read_only := Volume.Given true;
     Volume.sub_path := Volume.UNSET |}.

(** ** The egress rules *)

(** Values in which [json.loads] can undo [json.dumps] here: no
    numbers, and no dict with a repeated key. *)
Fixpoint distinct (keys : list string) : bool :=
  match keys with
  | [] => true
  | k :: keys' => negb (existsb (String.eqb k) keys') && distinct keys'
  end.

Fixpoint plain (v : pyval) : bool :=
  match v with
  | PNone => true
  | PBool _ => true
  | PInt _ => false
  | PStr _ => true
  | PList l => forallb plain l
  | PDict d => distinct (map fst d) && forallb (fun kv => plain (snd kv)) d
  end.

(** Calls of the decoder a value costs. *)
Fixpoint fuel_needed (v : pyval) : nat :=
  match v with
  | PList l => S (fold_right (fun x acc => S (fuel_needed x + acc)) O l)
  | PDict d => S (fold_right (fun kv acc => S (fuel_needed (snd kv) + acc)) O d)
  | _ => 1%nat
  end.

(** Reading a policy back from the decoded object: [defaultAction] when
    it is there, and the [action] and [target] of each entry of [egress]. *)
Definition rule_of_json (v : pyval) : option NetworkRule :=
  match getitem v "action", getitem v "target" with
  | Some (PStr a), Some (PStr t) => Some {| action := a; target := t |}
  | _, _ => None
  end.

Fixpoint rules_of_json (l : list pyval) : option (list NetworkRule) :=
  match l with
  | [] => Some []
  | v :: l' =>
      match rule_of_json v, rules_of_json l' with
      | Some r, Some rs => Some (r :: rs)
      | _, _ => None
      end
  end.

Definition policy_of_json (obj : pyval) : option NetworkPolicy :=
  match getitem obj "egress" with
  | Some (PList l) =>
      match rules_of_json l with
      | Some rules =>
          Some {| default_action :=
                    match getitem obj "defaultAction" with
                    | Some (PStr a) => Some a
                    | _ => None
                    end;
                  egress := rules |}
      | None => None
      end
  | _ => None
  end.

(** The policy of the specification's scenario. *)
Definition deny_all_but_pypi : NetworkPolicy :=
  {| default_action := Some "deny";
     egress := [{| action := "allow"; target := "pypi.org" |}] |}.

Definition items_need (l : list pyval) : nat :=
  fold_right (fun x acc => S (fuel_needed x + acc)) O l.

Definition pairs_need (d : list (string * pyval)) : nat :=
  fold_right (fun kv acc => S (fuel_needed (snd kv) + acc)) O d.

(** One member of an object, as [json.dumps] writes it. *)
Definition dumps_pair (kv : string * pyval) : string :=
  Json.encode_basestring_ascii (fst kv) +:+ ": " +:+ Json.dumps (snd kv).

(** What [json.loads] has to find for [v], whatever follows it. *)
Definition decodes (v : pyval) : Prop :=
  plain v = true ->
  forall fuel rest, (fuel_needed v <= fuel)%nat ->
    Json.scan_once fuel (Json.dumps v +:+ rest) = Some (v, rest).

(** The first and the last character of a string. *)
Definition first_char (s : string) : option ascii :=
  match s with
  | EmptyString => None
  | String c _ => Some c
  end.

Fixpoint last_char (s : string) : option ascii :=
  match s with
  | EmptyString => None
  | String c EmptyString => Some c
  | String _ s' => last_char s'
  end.

(** ** Request identifiers *)

(** Neither the first nor the last character of [s] is white space. *)
Definition trimmed (s : string) : Prop :=
  (forall c, first_char s = Some c -> isspace c = false) /\
  (forall c, last_char s = Some c -> isspace c = false).



(** * Further properties: definitions *)

(** ** Labels, character by character *)

(** The part of a label key the name rules apply to: what follows the
    first slash, or the whole key when it has none. *)
Definition name_part (key : string) : string :=
  match split_slash key with
  | Some (_, name) => name
  | None => key
  end.

(** No character class of [r] contains [x]. *)
Fixpoint avoids (x : ascii) (r : regex) : bool :=
  match r with
  | Void => true
  | Eps => true
  | Class p => negb (p x)
  | Cat r1 r2 => avoids x r1 && avoids x r2
  | Alt r1 r2 => avoids x r1 && avoids x r2
  | Star r1 => avoids x r1
  end.

(** A name as the pattern spells it out: only label characters, the
    first and the last of them alphanumeric. *)
Definition label_name_shape (s : string) : Prop :=
  all_chars label_char s = true /\
  (exists c, first_char s = Some c /\ alnum c = true) /\
  (exists c, last_char s = Some c /\ alnum c = true).

Definition with_line_feed (s : string) : string := s +:+ String line_feed "".

(** ** Request identifiers and headers *)

(** How many headers of [l] carry the name [key] (in lower case). *)
Definition count_headers (key : string) (l : Headers) : nat :=
  List.length (List.filter (fun h => String.eqb (fst h) key) l).

(** The headers of [l] that carry another name than [key], in the order
    and with the values they have in [l]. *)
Definition other_headers (key : string) (l : Headers) : Headers :=
  List.filter (fun h => negb (String.eqb (fst h) key)) l.

(** ** Sandbox identifiers *)

(** The characters a canonical UUID has in its 36 places. *)
Definition is_hyphen_place (i : nat) : bool :=
  Nat.eqb i 8 || Nat.eqb i 13 || Nat.eqb i 18 || Nat.eqb i 23.

Fixpoint uuid_shape_from (i : nat) (s : string) : bool :=
  match s with
  | EmptyString => true
  | String c s' =>
      (if is_hyphen_place i then Ascii.eqb c "-"
       else if Nat.eqb i 14 then Ascii.eqb c "4"
       else if Nat.eqb i 19 then
         Ascii.eqb c "8" || Ascii.eqb c "9" || Ascii.eqb c "a" || Ascii.eqb c "b"
       else is_hex_char c)
      && uuid_shape_from (S i) s'
  end.

(** [s] without its hyphens. *)
Fixpoint without_hyphens (s : string) : string :=
  match s with
  | EmptyString => EmptyString
  | String c s' => if Ascii.eqb c "-" then without_hyphens s' else String c (without_hyphens s')
  end.

(** ** Bind-IP resolution *)

(** A host that has IPv4 only. *)
Definition ipv4_only : Network :=
  {| udp_local_address := fun family _ =>
       match family with
       | AF_INET6 => OSError
       | AF_INET => Answer "10.0.0.5"
       end;
     getaddrinfo := fun _ => OSError |}.

(** ** The egress rules as text *)

(** A character between the space and the tilde. *)
Definition printable (c : ascii) : bool := in_range " " "~" c.

(** The value of the first environment variable of a container. *)
Definition first_env_value (container : pyval) : option string :=
  match getitem container "env" with
  | Some (PList (entry :: _)) =>
      match getitem entry "value" with
      | Some (PStr value) => Some value
      | _ => None
      end
  | _ => None
  end.

(** ** Volumes as dicts *)

(** The keys [Volume.from_dict] reads. *)
Definition volume_keys : list string :=
  ["name"; "mountPath"; "host"; "pvc"; "readOnly"; "subPath"].

(** ** Command status *)

(** Two wire values the converter cannot tell apart: the same value, or
    the sentinel and [None]. *)
Definition same_unwrapped (a b : attr) : Prop :=
  a = b \/ (a = AUnset /\ b = ANone) \/ (a = ANone /\ b = AUnset).

(** * Properties *)

(** ** Ports *)

(** C8: [ensure_valid_port p] returns normally exactly when
    [1 <= p <= 65535]; for every other integer it raises the error with
    code [INVALID_PORT] and HTTP status 400. *)
Theorem ensure_valid_port_iff (port : Z) :
  (ensure_valid_port port = Return tt <-> 1 <= port <= 65535) /\
  ensure_valid_port port =
    (if (1 <=? port) && (port <=? 65535) then Return tt
     else Raise (HTTPException 400 INVALID_PORT "Port must be between 1 and 65535.")).
Proof.
  unfold ensure_valid_port, HTTP_400_BAD_REQUEST.
  destruct (Z.ltb_spec port 1) as [Hlo | Hlo];
    destruct (Z.ltb_spec 65535 port) as [Hhi | Hhi];
    destruct (Z.leb_spec 1 port) as [Hlo' | Hlo'];
    destruct (Z.leb_spec port 65535) as [Hhi' | Hhi'];
    try lia; simpl; split; try reflexivity;
    split; intros H; try discriminate H; try reflexivity; lia.
Qed.

(** ** Expiration *)

(** C3, as stated, fails: an aware timestamp whose UTC reading lies
    beyond year 9999 makes the conversion raise [OverflowError], which is
    neither the [INVALID_EXPIRATION] error nor a return. *)
Lemma ensure_future_expiration_overflows :
  representable (wall last_moment_west) = true /\
  ensure_future_expiration new_year_2026 last_moment_west = Raise OverflowError.
Proof. split; reflexivity. Qed.

(** C3, amended: for every datetime [t] whose UTC reading is a
    representable datetime, [ensure_future_expiration t] raises
    [INVALID_EXPIRATION] (status 400) when that reading is at or before
    [now], and otherwise returns it, tagged UTC. *)
Theorem ensure_future_expiration_spec (now_us : Z) (t : datetime)
    (Hrep : representable (wall (to_utc t)) = true) :
  ensure_future_expiration {| wall := now_us; tzinfo := Some utc |} t =
    (if wall (to_utc t) <=? now_us then Raise INVALID_EXPIRATION_error
     else Return (to_utc t)) /\
  tzinfo (to_utc t) = Some utc /\
  instant (to_utc t) = instant t.
Proof.
  destruct t as [w [off |]]; unfold ensure_future_expiration, to_utc in *; simpl in *.
  - unfold astimezone_utc; simpl. rewrite Hrep. simpl.
    unfold datetime_le, instant, utc; simpl. rewrite !Z.sub_0_r.
    split; [destruct (_ <=? _); reflexivity | split; [reflexivity | lia]].
  - unfold datetime_le, instant, replace_tzinfo_utc, utc; simpl. rewrite !Z.sub_0_r.
    split; [destruct (_ <=? _); reflexivity | split; [reflexivity | lia]].
Qed.

(** 2026-01-01T09:00:00+08:00 is 01:00 UTC, an hour after [new_year_2026]. *)
Lemma ensure_future_expiration_spec_witness :
  ensure_future_expiration new_year_2026
    {| wall := 739616 * 86400 * 1000000 + 9 * 3600 * 1000000;
       tzinfo := Some (8 * 3600 * 1000000) |} =
  Return {| wall := 739616 * 86400 * 1000000 + 3600 * 1000000; tzinfo := Some utc |}.
Proof.
  exact (proj1 (ensure_future_expiration_spec (739616 * 86400 * 1000000)
                  {| wall := 739616 * 86400 * 1000000 + 9 * 3600 * 1000000;
                     tzinfo := Some (8 * 3600 * 1000000) |} eq_refl)).
Defined.

(** ** Egress composition *)

(** C2: the sidecar is named [egress] and adds [NET_ADMIN]; the main
    container drops [NET_ADMIN] when a policy is set and gets an empty
    security context otherwise; the pod sysctls are exactly the three
    [net.ipv6.conf.{all,default,lo}.disable_ipv6], each ["1"]. *)
Theorem network_admin_only_in_sidecar (egress_image : string) (p : NetworkPolicy) :
  let sidecar := build_egress_sidecar_container egress_image p in
  getitem sidecar "name" = Some (PStr "egress") /\
  getitem sidecar "securityContext" =
    Some (PDict [("capabilities", PDict [("add", PList [PStr "NET_ADMIN"])])]) /\
  build_security_context_for_main_container true =
    PDict [("capabilities", PDict [("drop", PList [PStr "NET_ADMIN"])])] /\
  build_security_context_for_main_container false = PDict [] /\
  build_ipv6_disable_sysctls =
    [PDict [("name", PStr "net.ipv6.conf.all.disable_ipv6"); ("value", PStr "1")];
     PDict [("name", PStr "net.ipv6.conf.default.disable_ipv6"); ("value", PStr "1")];
     PDict [("name", PStr "net.ipv6.conf.lo.disable_ipv6"); ("value", PStr "1")]].
Proof.
  intros sidecar. subst sidecar. unfold build_egress_sidecar_container.
  repeat split.
Qed.

(** ** Command status conversion *)

(** C9: [to_command_status] maps each of the seven fields on its own:
    [Unset] becomes [None], every other value is preserved. *)
Theorem to_command_status_unwraps_each_field (raw : CommandStatusResponse) :
  unwrapped (raw_id raw) (id (to_command_status raw)) /\
  unwrapped (raw_content raw) (content (to_command_status raw)) /\
  unwrapped (raw_running raw) (running (to_command_status raw)) /\
  unwrapped (raw_exit_code raw) (exit_code (to_command_status raw)) /\
  unwrapped (raw_error raw) (error (to_command_status raw)) /\
  unwrapped (raw_started_at raw) (started_at (to_command_status raw)) /\
  unwrapped (raw_finished_at raw) (finished_at (to_command_status raw)).
Proof.
  assert (H : forall a, unwrapped a (_unwrap_optional a)).
  { intros a. split.
    - intros ->. reflexivity.
    - intros Hne. destruct a; try reflexivity. contradiction. }
  destruct raw; simpl. repeat split; apply H.
Qed.

(** ** Regular expressions: the matcher decides the language *)

Import Re.

Lemma append_empty_inv (s1 s2 : string) :
  s1 +:+ s2 = "" -> s1 = "" /\ s2 = "".
Proof. destruct s1; simpl; [auto | discriminate]. Qed.

Lemma nullable_lang (r : regex) : nullable r = true <-> lang r "".
Proof.
  split.
  - induction r; simpl; intros H; try discriminate.
    + constructor.
    + apply andb_true_iff in H as [H1 H2].
      change "" with ("" +:+ ""). constructor; auto.
    + apply orb_true_iff in H as [H | H]; [apply lang_alt_l | apply lang_alt_r]; auto.
    + constructor.
  - intros H. remember "" as s eqn:Es. induction H; simpl; auto; try discriminate.
    + apply append_empty_inv in Es as [-> ->]. rewrite IHlang1, IHlang2; auto.
    + rewrite IHlang; auto.
    + rewrite IHlang; auto. apply orb_true_r.
Qed.

Lemma deriv_sound (c : ascii) (r : regex) :
  forall s, lang (deriv c r) s -> lang r (String c s).
Proof.
  induction r; simpl; intros s H.
  - inversion H.
  - inversion H.
  - destruct (p c) eqn:Ep; inversion H; subst. constructor; assumption.
  - destruct (nullable r1) eqn:En.
    + inversion H as [| | | ? ? ? H1 | ? ? ? H1 | |]; subst.
      * inversion H1; subst.
        change (String c (s1 +:+ s2)) with (String c s1 +:+ s2).
        constructor; auto.
      * change (String c s) with ("" +:+ String c s).
        constructor; [apply nullable_lang; assumption | auto].
    + inversion H; subst.
      change (String c (s1 +:+ s2)) with (String c s1 +:+ s2).
      constructor; auto.
  - inversion H; subst; [apply lang_alt_l | apply lang_alt_r]; auto.
  - inversion H; subst.
    change (String c (s1 +:+ s2)) with (String c s1 +:+ s2).
    constructor; auto.
Qed.

Lemma deriv_complete (c : ascii) (r : regex) (w : string) :
  lang r w -> forall s, w = String c s -> lang (deriv c r) s.
Proof.
  induction 1 as [| p a Hp | r1 r2 s1 s2 H1 IH1 H2 IH2 | r1 r2 s0 H1 IH1
                  | r1 r2 s0 H1 IH1 | r0 | r0 s1 s2 H1 IH1 H2 IH2];
    intros s Es; simpl.
  - discriminate.
  - injection Es as -> <-. rewrite Hp. constructor.
  - destruct s1 as [| a s1'].
    + simpl in Es. assert (Hn : nullable r1 = true) by (apply nullable_lang; assumption).
      rewrite Hn. apply lang_alt_r. auto.
    + simpl in Es. injection Es as -> <-.
      destruct (nullable r1); [apply lang_alt_l |]; constructor; auto.
  - apply lang_alt_l; auto.
  - apply lang_alt_r; auto.
  - discriminate.
  - destruct s1 as [| a s1'].
    + simpl in Es. apply (IH2 s Es).
    + simpl in Es. injection Es as -> <-. constructor; auto.
Qed.

Lemma fullmatch_lang (s : string) : forall r, fullmatch r s = true <-> lang r s.
Proof.
  induction s as [| c s IH]; intros r; simpl.
  - apply nullable_lang.
  - rewrite IH. split.
    + apply deriv_sound.
    + intros H. eapply deriv_complete; eauto.
Qed.

(** ** Metadata labels *)

Lemma chomp_contains (s s' : string) : chomp s = Some s' -> contains line_feed s = true.
Proof.
  revert s'. induction s as [| c s IH]; intros s' H; simpl in *; [discriminate |].
  destruct s as [| c' s''].
  - destruct (Ascii.eqb c "010") eqn:E; [| discriminate]. unfold line_feed. rewrite E. reflexivity.
  - destruct (chomp (String c' s'')) as [t |] eqn:Et; [| discriminate].
    rewrite (IH t eq_refl). apply orb_true_r.
Qed.

Lemma match_anchored_lang (r : regex) (s : string) :
  contains line_feed s = false -> (match_anchored r s = true <-> lang r s).
Proof.
  intros Hnl. unfold match_anchored.
  destruct (chomp s) as [s' |] eqn:Ec.
  - apply chomp_contains in Ec. congruence.
  - rewrite orb_false_r. apply fullmatch_lang.
Qed.

Lemma split_slash_parts (key prefix name : string) :
  split_slash key = Some (prefix, name) ->
  len key = len prefix + 1 + len name /\
  (contains line_feed key = false ->
   contains line_feed prefix = false /\ contains line_feed name = false).
Proof.
  unfold len. revert prefix name.
  induction key as [| c key IH]; intros prefix name H; simpl in H; [discriminate |].
  destruct (Ascii.eqb c "/") eqn:Ec.
  - injection H as <- <-. simpl. split; [lia |].
    intros Hk. apply orb_false_iff in Hk as [_ Hk]. auto.
  - destruct (split_slash key) as [[p n] |] eqn:Es; [| discriminate].
    injection H as <- <-. destruct (IH p n eq_refl) as [Hlen Hnl].
    simpl. split; [lia |].
    intros Hk. apply orb_false_iff in Hk as [Hc Hk].
    destruct (Hnl Hk) as [Hp Hn]. rewrite Hc, Hp. auto.
Qed.

Lemma is_empty_iff (s : string) : is_empty s = true <-> s = "".
Proof. destruct s; simpl; split; congruence. Qed.

Lemma label_name_not_empty : ~ lang LABEL_NAME_PATTERN "".
Proof. intros H. apply fullmatch_lang in H. discriminate H. Qed.

(** The key check, for a key without line feed: the key as a whole has
    at most 253 characters and obeys the rule of the specification. *)
Lemma is_valid_label_key_iff (key : string) :
  contains line_feed key = false ->
  (_is_valid_label_key key = true <-> len key <= 253 /\ spec_valid_key key).
Proof.
  intros Hnl. unfold _is_valid_label_key, spec_valid_key.
  destruct (split_slash key) as [[prefix name] |] eqn:Es.
  - destruct (split_slash_parts _ _ _ Es) as [Hlen Hparts].
    destruct (Hparts Hnl) as [Hp Hn].
    pose proof (match_anchored_lang DNS_SUBDOMAIN_PATTERN prefix Hp) as Hd.
    pose proof (match_anchored_lang LABEL_NAME_PATTERN name Hn) as Hl.
    pose proof (is_empty_iff prefix) as Hep. pose proof (is_empty_iff name) as Hen.
    unfold DNS_SUBDOMAIN_RE, LABEL_NAME_RE.
    assert (Hlp : 0 <= len prefix) by (unfold len; lia).
    assert (Hln : 0 <= len name) by (unfold len; lia).
    destruct (Z.ltb_spec 253 (len key)); destruct (Z.ltb_spec 253 (len prefix));
      simpl; try (split; [discriminate | intros [? ?]; lia]);
      try (split; [discriminate | intros [? [? [? ?]]]; lia]).
    destruct (is_empty prefix); simpl.
    { split; [discriminate | intros [_ [Hne _]]; exfalso; apply Hne, Hep; reflexivity]. }
    destruct (is_empty name); simpl.
    { split; [discriminate |].
      intros [_ [_ [_ [_ [_ Hlang]]]]]. rewrite (proj1 Hen eq_refl) in Hlang.
      exfalso; exact (label_name_not_empty Hlang). }
    destruct (match_anchored DNS_SUBDOMAIN_PATTERN prefix); simpl.
    2:{ split; [discriminate | intros [_ [_ [_ [Hlang _]]]]; apply Hd in Hlang; discriminate]. }
    destruct (Z.ltb_spec 63 (len name)); simpl.
    { split; [discriminate | intros [_ [_ [_ [_ [? _]]]]]; lia]. }
    destruct (match_anchored LABEL_NAME_PATTERN name); simpl.
    2:{ split; [discriminate | intros [_ [_ [_ [_ [_ Hlang]]]]]; apply Hl in Hlang; discriminate]. }
    split; [intros _ | reflexivity].
    repeat split; try lia; try (apply Hd; reflexivity); try (apply Hl; reflexivity).
    intros E. apply Hep in E. discriminate.
  - pose proof (match_anchored_lang LABEL_NAME_PATTERN key Hnl) as Hl.
    unfold LABEL_NAME_RE.
    destruct (Z.ltb_spec 253 (len key)); simpl.
    { split; [discriminate | intros [? _]; lia]. }
    destruct (Z.ltb_spec 63 (len key)); simpl.
    { split; [discriminate | intros [_ [? _]]; lia]. }
    destruct (match_anchored LABEL_NAME_PATTERN key); simpl.
    2:{ split; [discriminate | intros [_ [_ Hlang]]; apply Hl in Hlang; discriminate]. }
    split; [intros _ | reflexivity].
    repeat split; try lia. apply Hl; reflexivity.
Qed.

Lemma is_valid_label_value_iff (value : string) :
  contains line_feed value = false ->
  (_is_valid_label_value value = true <-> spec_valid_value value).
Proof.
  intros Hnl. unfold _is_valid_label_value, spec_valid_value, LABEL_VALUE_RE.
  pose proof (match_anchored_lang LABEL_VALUE_PATTERN value Hnl) as Hl.
  destruct (Z.ltb_spec 63 (len value)).
  { split; [discriminate | intros [? _]; lia]. }
  rewrite Hl. unfold LABEL_VALUE_PATTERN, Opt. split.
  - intros H'. split; [lia |]. inversion H'; subst; [right; assumption | left].
    match goal with H0 : lang Eps _ |- _ => inversion H0; reflexivity end.
  - intros [_ [-> | Hlang]]; [apply lang_alt_r; constructor | apply lang_alt_l; assumption].
Qed.

Lemma ensure_metadata_labels_items (items : list (pyval * pyval)) :
  ensure_metadata_labels (Some items) = check_items items.
Proof. destruct items; reflexivity. Qed.

Lemma check_item_outcome (item : pyval * pyval) :
  check_item item = Return tt \/ raises_invalid_label (check_item item).
Proof.
  unfold raises_invalid_label, check_item, invalid_label, HTTP_400_BAD_REQUEST.
  destruct item as [k v].
  destruct k; try (right; eexists; reflexivity).
  destruct v; try (right; eexists; reflexivity).
  destruct (_is_valid_label_key s); simpl; [| right; eexists; reflexivity].
  destruct (_is_valid_label_value s0); simpl; [left | right; eexists]; reflexivity.
Qed.

Lemma check_items_outcome (items : list (pyval * pyval)) :
  check_items items = Return tt \/ raises_invalid_label (check_items items).
Proof.
  induction items as [| item rest IH]; simpl; [left; reflexivity |].
  destruct (check_item_outcome item) as [E | [msg E]]; rewrite E; simpl.
  - destruct (check_item item) as [[] |]; exact IH.
  - right. exists msg. reflexivity.
Qed.

Lemma check_item_str (key value : string) :
  check_item (PStr key, PStr value) = Return tt <->
  _is_valid_label_key key = true /\ _is_valid_label_value value = true.
Proof.
  unfold check_item.
  destruct (_is_valid_label_key key); simpl; [| split; [discriminate | intros [? _]; discriminate]].
  destruct (_is_valid_label_value value); simpl; split; auto; try discriminate.
  intros [_ ?]; discriminate.
Qed.

Lemma check_items_cons (item : pyval * pyval) (rest : list (pyval * pyval)) :
  check_items (item :: rest) = Return tt <->
  check_item item = Return tt /\ check_items rest = Return tt.
Proof.
  simpl. destruct (check_item item) as [[] | e]; simpl.
  - split; [auto | intros [_ ?]; assumption].
  - split; [discriminate | intros [? _]; discriminate].
Qed.

(** C4, as stated, fails: a key whose prefix has 253 characters obeys
    the rule as worded, with an empty value, and is refused. *)
Lemma long_prefix_key_refused :
  spec_valid_key long_prefix_key /\ spec_valid_value "" /\
  contains line_feed long_prefix_key = false /\
  ensure_metadata_labels (Some (str_items [(long_prefix_key, "")])) =
    Raise (HTTPException 400 INVALID_METADATA_LABEL
             ("Metadata key '" +:+ long_prefix_key +:+
              "' is not a valid Kubernetes label key.")).
Proof.
  split; [| split; [| split]].
  - unfold spec_valid_key.
    replace (split_slash long_prefix_key) with (Some (repeat_char "a" 253, "a"))
      by (vm_compute; reflexivity).
    split; [discriminate |]. split; [vm_compute; discriminate |].
    split; [apply fullmatch_lang; vm_compute; reflexivity |].
    split; [vm_compute; discriminate |].
    apply fullmatch_lang; vm_compute; reflexivity.
  - split; [vm_compute; discriminate | left; reflexivity].
  - vm_compute; reflexivity.
  - vm_compute; reflexivity.
Qed.

(** C4, amended: for every mapping of strings to strings in which no key
    or value contains a line feed, [ensure_metadata_labels] returns
    normally exactly when every key has at most 253 characters in all and
    obeys the key rule, and every value obeys the value rule; otherwise it
    raises [INVALID_METADATA_LABEL] with HTTP status 400. *)
Theorem ensure_metadata_labels_iff (m : list (string * string))
    (Hnl : Forall (fun kv => contains line_feed (fst kv) = false /\
                             contains line_feed (snd kv) = false) m) :
  (ensure_metadata_labels (Some (str_items m)) = Return tt <->
   Forall (fun kv => len (fst kv) <= 253 /\ spec_valid_key (fst kv) /\
                     spec_valid_value (snd kv)) m) /\
  (ensure_metadata_labels (Some (str_items m)) = Return tt \/
   raises_invalid_label (ensure_metadata_labels (Some (str_items m)))).
Proof.
  rewrite ensure_metadata_labels_items. split; [| apply check_items_outcome].
  induction Hnl as [| [k v] m [Hk Hv] Hm IH]; simpl str_items.
  - split; [constructor | reflexivity].
  - rewrite check_items_cons, check_item_str, IH.
    rewrite (is_valid_label_key_iff k Hk), (is_valid_label_value_iff v Hv). simpl.
    split.
    + intros [[[? ?] ?] ?]. constructor; auto.
    + intros H. inversion H as [| ? ? [? [? ?]] ?]; subst. auto.
Qed.

Lemma ensure_metadata_labels_iff_witness :
  ensure_metadata_labels (Some (str_items [("team", "platform"); ("example.com/tier", "")])) = Return tt.
Proof.
  apply (proj1 (ensure_metadata_labels_iff
                  [("team", "platform"); ("example.com/tier", "")]
                  ltac:(repeat constructor))).
  assert (Hlang : forall r s, fullmatch r s = true -> lang r s)
    by (intros r s H; apply fullmatch_lang; exact H).
  constructor; [| constructor; [| constructor]]; simpl.
  - split; [vm_compute; discriminate |]. split.
    + unfold spec_valid_key; simpl.
      split; [vm_compute; discriminate | apply Hlang; vm_compute; reflexivity].
    + split; [vm_compute; discriminate | right; apply Hlang; vm_compute; reflexivity].
  - split; [vm_compute; discriminate |]. split.
    + unfold spec_valid_key; simpl.
      split; [discriminate |]. split; [vm_compute; discriminate |].
      split; [apply Hlang; vm_compute; reflexivity |].
      split; [vm_compute; discriminate | apply Hlang; vm_compute; reflexivity].
    + split; [vm_compute; discriminate | left; reflexivity].
Defined.

(** The line feed the anchor [$] lets through: such keys and values are
    accepted although they do not match the patterns. *)
Example trailing_line_feed_accepted :
  ensure_metadata_labels
    (Some (str_items [(String "a" (String line_feed ""), String line_feed "")])) = Return tt /\
  fullmatch LABEL_NAME_PATTERN (String "a" (String line_feed "")) = false.
Proof. split; vm_compute; reflexivity. Qed.

(** C10: [None] and the empty mapping pass; a mapping with a key or a
    value that is not a string raises [INVALID_METADATA_LABEL] (status
    400); and on such an entry the type check is what fails, whatever the
    syntax of its string part: once the entries before it have passed,
    the error is the one about types. *)
Theorem ensure_metadata_labels_non_string :
  ensure_metadata_labels None = Return tt /\
  ensure_metadata_labels (Some []) = Return tt /\
  (forall items,
     Exists (fun kv => is_str (fst kv) && is_str (snd kv) = false) items ->
     raises_invalid_label (ensure_metadata_labels (Some items))) /\
  (forall before key value after,
     Forall (fun kv => check_item kv = Return tt) before ->
     is_str key && is_str value = false ->
     ensure_metadata_labels (Some (before ++ (key, value) :: after)%list) =
       Raise (HTTPException 400 INVALID_METADATA_LABEL
                "Metadata keys and values must be strings.")).
Proof.
  assert (Hitem : forall key value, is_str key && is_str value = false ->
            check_item (key, value) =
              Raise (HTTPException 400 INVALID_METADATA_LABEL
                       "Metadata keys and values must be strings.")).
  { intros key value H. destruct key; try reflexivity.
    destruct value; try reflexivity. discriminate H. }
  split; [reflexivity |]. split; [reflexivity |]. split.
  - intros items Hex. rewrite ensure_metadata_labels_items.
    induction Hex as [[k v] rest Hbad | item rest Hex IH]; cbn [check_items].
    + simpl in Hbad. rewrite (Hitem k v Hbad). simpl. eexists; reflexivity.
    + destruct (check_item_outcome item) as [E | [msg E]]; rewrite E; simpl.
      * exact IH.
      * exists msg; reflexivity.
  - intros before key value after Hbefore Hbad. rewrite ensure_metadata_labels_items.
    induction Hbefore as [| item before Hitem_ok Hbefore IH]; cbn [check_items app].
    + rewrite (Hitem key value Hbad). reflexivity.
    + rewrite Hitem_ok. simpl. exact IH.
Qed.

(** ** Bind-IP resolution *)

Import SandboxService.


Lemma truthy_nonempty (s : string) : RequestId.truthy s = true -> s <> "".
Proof. destruct s; [discriminate | discriminate]. Qed.




(** The host-name step applies no link-local filter. *)
Example link_local_through_hostname :
  _resolve_bind_ip link_local_only AF_INET6 = "fe80::1".
Proof. reflexivity. Qed.


(** ** Request identifiers *)

Import RequestId.

Lemma hex_fixed_length (width : nat) (n : N) : String.length (hex_fixed width n) = width.
Proof. induction width; simpl; congruence. Qed.

Lemma nibble_bound (n : N) (i : nat) : (nibble n i < 16)%N.
Proof.
  unfold nibble. change 15%N with (N.ones 4). rewrite N.land_ones.
  apply N.mod_lt. discriminate.
Qed.

Lemma hex_digit_is_hex (d : N) : (d < 16)%N -> is_hex_char (Json.hex_digit d) = true.
Proof.
  intros H.
  assert (Hd : In d (map N.of_nat (seq 0 16))).
  { replace d with (N.of_nat (N.to_nat d)) by apply N2Nat.id.
    apply in_map, in_seq. lia. }
  simpl in Hd.
  repeat (destruct Hd as [<- | Hd]; [reflexivity |]). contradiction.
Qed.

Lemma hex_fixed_all_hex (width : nat) (n : N) :
  all_chars is_hex_char (hex_fixed width n) = true.
Proof.
  induction width; simpl; [reflexivity |].
  rewrite hex_digit_is_hex by apply nibble_bound. exact IHwidth.
Qed.

(** Bits 76 to 79 of a generated identifier spell the version, 4. *)
Lemma uuid4_version_nibble (r : N) : nibble (uuid4 r) 19 = 4%N.
Proof.
  unfold nibble. apply N.bits_inj. intros i.
  rewrite N.land_spec, N.shiftr_spec by apply N.le_0_l.
  destruct (N.lt_ge_cases i 4) as [Hlt | Hge].
  - unfold uuid4. rewrite N.lor_spec, N.ldiff_spec.
    assert (Hi : i = 0%N \/ i = 1%N \/ i = 2%N \/ i = 3%N) by lia.
    destruct Hi as [-> | [-> | [-> | ->]]]; simpl;
      rewrite ?andb_false_r, ?andb_true_r, ?orb_false_r, ?orb_true_r; reflexivity.
  - assert (H15 : N.testbit 15 i = false)
      by (apply N.bits_above_log2; change (N.log2 15) with 3%N; lia).
    assert (H4 : N.testbit 4 i = false)
      by (apply N.bits_above_log2; change (N.log2 4) with 2%N; lia).
    rewrite H15, H4. apply andb_false_r.
Qed.


Lemma uuid4_hex_truthy (r : N) : truthy (uuid4_hex r) = true.
Proof. reflexivity. Qed.

Lemma request_id_of_truthy (raw : option string) (r : N) : truthy (request_id_of raw r) = true.
Proof.
  unfold request_id_of. destruct raw as [v |]; [| apply uuid4_hex_truthy].
  destruct (truthy v); simpl; [| apply uuid4_hex_truthy].
  destruct (truthy (strip v)) eqn:E; [exact E | apply uuid4_hex_truthy].
Qed.



(** ** Volumes *)

Section VolumeRoundTrip.

Variables Host PVC : Type.
Variable Host_to_dict : Host -> pyval.
Variable Host_from_dict : pyval -> option Host.
Variable PVC_to_dict : PVC -> pyval.
Variable PVC_from_dict : pyval -> option PVC.

Hypothesis Host_round_trip : forall h, Host_from_dict (Host_to_dict h) = Some h.
Hypothesis PVC_round_trip : forall c, PVC_from_dict (PVC_to_dict c) = Some c.

(** C7: [Volume.from_dict(v.to_dict())] is [v], for backends whose own
    [from_dict] undoes their [to_dict]: a field that is [UNSET] stays
    [UNSET] and a field that is set keeps its value. *)
Theorem volume_round_trip (v : Volume.Volume Host PVC) :
  Volume.from_dict Host PVC Host_from_dict PVC_from_dict
    (Volume.to_dict Host PVC Host_to_dict PVC_to_dict v) = Some v.
Proof.
  destruct v as [name mount_path [| h] [| c] [| ro] [| sp]];
    unfold Volume.from_dict, Volume.to_dict, Volume.pop, Volume.pop_default,
      Volume.set_unless_unset, Volume.fmap_unset, Volume.read_unset;
    cbn [Volume.name Volume.mount_path Volume.host Volume.pvc
         Volume.read_only Volume.sub_path];
    simplify_map_eq; rewrite ?Host_round_trip, ?PVC_round_trip; simplify_map_eq;
    reflexivity.
Qed.

End VolumeRoundTrip.

Lemma volume_round_trip_witness :
  Volume.from_dict HostPath Claim HostPath_from_dict Claim_from_dict
    (Volume.to_dict HostPath Claim HostPath_to_dict Claim_to_dict data_volume)
  = Some data_volume.
Proof.
  apply (volume_round_trip HostPath Claim HostPath_to_dict HostPath_from_dict
           Claim_to_dict Claim_from_dict).
  - intros [p]. reflexivity.
  - intros [c]. reflexivity.
Defined.

(** ** JSON: decoding undoes encoding *)

#[local] Arguments String.append !s1 s2.

Lemma append_assoc (a b c : string) : (a +:+ b) +:+ c = a +:+ (b +:+ c).
Proof. induction a as [| x a IH]; simpl; [reflexivity | rewrite IH; reflexivity]. Qed.

Lemma append_length (a b : string) :
  String.length (a +:+ b) = (String.length a + String.length b)%nat.
Proof. induction a as [| x a IH]; simpl; [reflexivity | rewrite IH; reflexivity]. Qed.

Lemma pyval_nested_ind (P : pyval -> Prop) :
  P PNone -> (forall b, P (PBool b)) -> (forall n, P (PInt n)) -> (forall s, P (PStr s)) ->
  (forall l, Forall P l -> P (PList l)) ->
  (forall d, Forall (fun kv => P (snd kv)) d -> P (PDict d)) ->
  forall v, P v.
Proof.
  intros HNone HBool HInt HStr HList HDict.
  fix IH 1. intros [| b | n | s | l | d].
  - exact HNone.
  - apply HBool.
  - apply HInt.
  - apply HStr.
  - apply HList. induction l as [| x l IHl]; constructor; [apply IH | exact IHl].
  - apply HDict. induction d as [| [k x] d IHd]; constructor; [apply IH | exact IHd].
Qed.

Lemma scanstring_escape_char (c : ascii) (t : string) :
  Json.scanstring (Json.escape_char c +:+ t) = Json.cons_char c (Json.scanstring t).
Proof. destruct c as [[] [] [] [] [] [] [] []]; reflexivity. Qed.

Lemma scanstring_escape (s rest : string) :
  Json.scanstring (Json.escape s +:+ String Json.dquote rest) = Some (s, rest).
Proof.
  induction s as [| c s IH]; [reflexivity |].
  cbn [Json.escape]. rewrite append_assoc, scanstring_escape_char, IH. reflexivity.
Qed.

Lemma encode_append (s rest : string) :
  Json.encode_basestring_ascii s +:+ rest =
  String Json.dquote (Json.escape s +:+ String Json.dquote rest).
Proof. unfold Json.encode_basestring_ascii. simpl. rewrite append_assoc. reflexivity. Qed.

Lemma scan_once_string (fuel : nat) (s : string) :
  Json.scan_once (S fuel) (String Json.dquote s) =
  match Json.scanstring s with
  | Some (str, rest) => Some (PStr str, rest)
  | None => None
  end.
Proof. reflexivity. Qed.

Lemma scan_once_list (fuel : nat) (s : string) :
  Json.scan_once (S fuel) (String "[" s) =
  match Json.skip_ws s with
  | EmptyString => None
  | String c1 s1 =>
      if Ascii.eqb c1 "]" then Some (PList [], s1)
      else match Json.scan_items fuel (String c1 s1) with
           | Some (l, rest) => Some (PList l, rest)
           | None => None
           end
  end.
Proof. reflexivity. Qed.

Lemma scan_once_dict (fuel : nat) (s : string) :
  Json.scan_once (S fuel) (String "{" s) =
  match Json.skip_ws s with
  | EmptyString => None
  | String c1 s1 =>
      if Ascii.eqb c1 "}" then Some (PDict [], s1)
      else match Json.scan_pairs fuel (String c1 s1) with
           | Some (pairs, rest) => Some (PDict (Json.dict_of_pairs pairs), rest)
           | None => None
           end
  end.
Proof. reflexivity. Qed.

Lemma scan_items_step (fuel : nat) (s : string) :
  Json.scan_items (S fuel) s =
  match Json.scan_once fuel s with
  | None => None
  | Some (v, s1) =>
      match Json.skip_ws s1 with
      | EmptyString => None
      | String c s2 =>
          if Ascii.eqb c "," then
            match Json.scan_items fuel (Json.skip_ws s2) with
            | Some (l, rest) => Some (v :: l, rest)
            | None => None
            end
          else if Ascii.eqb c "]" then Some ([v], s2)
          else None
      end
  end.
Proof. reflexivity. Qed.

Lemma scan_pairs_step (fuel : nat) (s0 : string) :
  Json.scan_pairs (S fuel) (String Json.dquote s0) =
  match Json.scanstring s0 with
  | None => None
  | Some (key, s1) =>
      match Json.skip_ws s1 with
      | EmptyString => None
      | String colon s2 =>
          if negb (Ascii.eqb colon ":") then None
          else
            match Json.scan_once fuel (Json.skip_ws s2) with
            | None => None
            | Some (v, s3) =>
                match Json.skip_ws s3 with
                | EmptyString => None
                | String c s4 =>
                    if Ascii.eqb c "," then
                      match Json.scan_pairs fuel (Json.skip_ws s4) with
                      | Some (l, rest) => Some ((key, v) :: l, rest)
                      | None => None
                      end
                    else if Ascii.eqb c "}" then Some ([(key, v)], s4)
                    else None
                end
            end
      end
  end.
Proof. reflexivity. Qed.

(** An encoded value starts with a character that is neither white
    space nor punctuation of the enclosing array or object. *)
Lemma dumps_head (v : pyval) :
  plain v = true ->
  exists c s, Json.dumps v = String c s /\ Json.is_ws c = false /\
              Ascii.eqb c "]" = false /\ Ascii.eqb c "}" = false.
Proof.
  destruct v as [| [] | n | s | l | d]; simpl; intros H; try discriminate;
    eexists; eexists; (split; [reflexivity | repeat split]).
Qed.

Lemma skip_ws_dumps (v : pyval) (t : string) :
  plain v = true -> Json.skip_ws (Json.dumps v +:+ t) = Json.dumps v +:+ t.
Proof.
  intros H. destruct (dumps_head v H) as (c & s & -> & Hws & _). simpl. rewrite Hws. reflexivity.
Qed.

Lemma concat_cons_append (x : string) (l : list string) (t : string) :
  String.concat ", " (x :: l) +:+ t =
  x +:+ match l with
        | [] => t
        | _ :: _ => String "," (String " " (String.concat ", " l +:+ t))
        end.
Proof.
  destruct l as [| y l]; [reflexivity |].
  cbn [String.concat]. rewrite !append_assoc. reflexivity.
Qed.

Lemma scan_items_dumps (l : list pyval) :
  Forall decodes l -> forallb plain l = true -> l <> [] ->
  forall fuel rest, (items_need l <= fuel)%nat ->
    Json.scan_items fuel (String.concat ", " (map Json.dumps l) +:+ String "]" rest) =
    Some (l, rest).
Proof.
  induction 1 as [| x l Hx Hl IH]; intros Hplain Hne fuel rest Hfuel; [contradiction |].
  cbn [forallb] in Hplain. apply andb_true_iff in Hplain as [Hpx Hpl].
  cbn [items_need fold_right] in Hfuel. fold (items_need l) in Hfuel.
  destruct fuel as [| fuel]; [lia |].
  rewrite scan_items_step. cbn [map]. rewrite concat_cons_append.
  rewrite (Hx Hpx) by lia.
  destruct l as [| y l'].
  - simpl. reflexivity.
  - cbn [map]. cbn [Json.skip_ws Json.is_ws Ascii.eqb Bool.eqb orb].
    change (Json.skip_ws (String "," ?s)) with (String "," s).
    cbn [Ascii.eqb Bool.eqb andb].
    assert (Hskip : forall t, Json.skip_ws (String.concat ", " (map Json.dumps (y :: l')) +:+ t)
                   = String.concat ", " (map Json.dumps (y :: l')) +:+ t).
    { intros t. cbn [map]. rewrite concat_cons_append.
      cbn [forallb] in Hpl. apply andb_true_iff in Hpl as [Hpy _].
      apply skip_ws_dumps; assumption. }
    cbn [map] in Hskip. rewrite Hskip.
    pose proof (IH Hpl ltac:(discriminate) fuel rest ltac:(lia)) as Hrest.
    cbn [map] in Hrest. rewrite Hrest. reflexivity.
Qed.

Lemma scan_pairs_dumps (d : list (string * pyval)) :
  Forall (fun kv => decodes (snd kv)) d ->
  forallb (fun kv => plain (snd kv)) d = true -> d <> [] ->
  forall fuel rest, (pairs_need d <= fuel)%nat ->
    Json.scan_pairs fuel (String.concat ", " (map dumps_pair d) +:+ String "}" rest) =
    Some (d, rest).
Proof.
  induction 1 as [| [k x] d Hx Hd IH]; intros Hplain Hne fuel rest Hfuel; [contradiction |].
  cbn [forallb snd] in Hplain. apply andb_true_iff in Hplain as [Hpx Hpd].
  cbn [pairs_need fold_right snd] in Hfuel. fold (pairs_need d) in Hfuel.
  destruct fuel as [| fuel]; [lia |].
  cbn [map]. rewrite concat_cons_append.
  unfold dumps_pair at 1. cbn [fst snd].
  rewrite !append_assoc, encode_append, scan_pairs_step, scanstring_escape.
  cbn [String.append Json.skip_ws Json.is_ws Ascii.eqb Bool.eqb orb negb andb].
  rewrite (skip_ws_dumps x _ Hpx).
  cbn [snd] in Hx. rewrite (Hx Hpx) by lia.
  destruct d as [| kv' d'].
  - reflexivity.
  - assert (Hskip : forall t, Json.skip_ws (String.concat ", " (map dumps_pair (kv' :: d')) +:+ t)
                   = String.concat ", " (map dumps_pair (kv' :: d')) +:+ t).
    { intros t. cbn [map]. rewrite concat_cons_append.
      set (T := match map dumps_pair d' with [] => t | _ :: _ => _ end).
      unfold dumps_pair. rewrite !append_assoc, !encode_append. reflexivity. }
    pose proof (IH Hpd ltac:(discriminate) fuel rest ltac:(lia)) as Hrest.
    cbn [map] in Hskip, Hrest.
    cbn [map Json.skip_ws Json.is_ws Ascii.eqb Bool.eqb orb negb andb].
    rewrite Hskip, Hrest. reflexivity.
Qed.

Lemma distinct_middle_fresh (acc : list string) (k : string) (rest : list string) :
  distinct (acc ++ k :: rest) = true -> existsb (String.eqb k) acc = false.
Proof.
  induction acc as [| a acc IH]; simpl; intros H; [reflexivity |].
  apply andb_true_iff in H as [Ha Hd].
  rewrite (IH Hd), orb_false_r.
  apply negb_true_iff in Ha. rewrite existsb_app in Ha.
  apply orb_false_iff in Ha as [_ Ha]. simpl in Ha.
  apply orb_false_iff in Ha as [Ha _]. rewrite String.eqb_sym. exact Ha.
Qed.

Lemma dict_set_fresh (k : string) (v : pyval) (d : list (string * pyval)) :
  existsb (String.eqb k) (map fst d) = false -> Json.dict_set k v d = (d ++ [(k, v)])%list.
Proof.
  induction d as [| [k' v'] d IH]; simpl; intros H; [reflexivity |].
  apply orb_false_iff in H as [Hk Hd]. rewrite Hk, (IH Hd). reflexivity.
Qed.

Lemma dict_of_pairs_distinct (d : list (string * pyval)) :
  distinct (map fst d) = true -> Json.dict_of_pairs d = d.
Proof.
  unfold Json.dict_of_pairs.
  assert (H : forall d acc, distinct (map fst (acc ++ d)) = true ->
            fold_left (fun d0 kv => Json.dict_set (fst kv) (snd kv) d0) d acc = (acc ++ d)%list).
  { clear d. induction d as [| [k v] d IH]; intros acc Hd; simpl.
    - rewrite app_nil_r. reflexivity.
    - rewrite dict_set_fresh.
      + rewrite IH; rewrite <- app_assoc; [reflexivity | exact Hd].
      + rewrite map_app in Hd. simpl in Hd. eapply distinct_middle_fresh; exact Hd. }
  intros Hd. apply (H d []). exact Hd.
Qed.

(** Decoding an encoded value gives the value back and stops where the
    encoding ends. *)
Lemma scan_once_dumps (v : pyval) : decodes v.
Proof.
  induction v as [| b | n | s | l Hl | d Hd] using pyval_nested_ind;
    intros Hplain fuel rest Hfuel.
  - destruct fuel; [simpl in Hfuel; lia | reflexivity].
  - destruct fuel; [simpl in Hfuel; lia | destruct b; reflexivity].
  - discriminate Hplain.
  - destruct fuel; [simpl in Hfuel; lia |].
    cbn [Json.dumps]. rewrite encode_append, scan_once_string, scanstring_escape. reflexivity.
  - cbn [plain] in Hplain. cbn [fuel_needed] in Hfuel. fold (items_need l) in Hfuel.
    destruct fuel as [| fuel]; [lia |].
    cbn [Json.dumps]. rewrite !append_assoc. cbn [String.append].
    rewrite scan_once_list.
    destruct l as [| x l']; [reflexivity |].
    pose proof (scan_items_dumps (x :: l') Hl Hplain ltac:(discriminate) fuel rest ltac:(lia))
      as Hitems.
    cbn [forallb] in Hplain. apply andb_true_iff in Hplain as [Hpx _].
    cbn [map] in Hitems |- *. rewrite concat_cons_append in Hitems |- *.
    destruct (dumps_head x Hpx) as (c & s & E & Hws & Hb & _).
    rewrite E in Hitems |- *. cbn [String.append Json.skip_ws] in Hitems |- *.
    rewrite Hws, Hb, Hitems. reflexivity.
  - cbn [plain] in Hplain. apply andb_true_iff in Hplain as [Hkeys Hplain].
    cbn [fuel_needed] in Hfuel. fold (pairs_need d) in Hfuel.
    destruct fuel as [| fuel]; [lia |].
    assert (E : Json.dumps (PDict d) +:+ rest =
                String "{" (String.concat ", " (map dumps_pair d) +:+ String "}" rest)).
    { cbn [Json.dumps]. rewrite !append_assoc. reflexivity. }
    rewrite E, scan_once_dict.
    destruct d as [| [k x] d']; [reflexivity |].
    pose proof (scan_pairs_dumps ((k, x) :: d') Hd Hplain ltac:(discriminate) fuel rest ltac:(lia))
      as Hpairs.
    remember (String.concat ", " (map dumps_pair ((k, x) :: d')) +:+ String "}" rest) as body eqn:Eb.
    assert (Hhead : exists s', body = String Json.dquote s').
    { subst body. cbn [map]. rewrite concat_cons_append. unfold dumps_pair at 1.
      rewrite append_assoc, encode_append. eexists; reflexivity. }
    destruct Hhead as [s' ->].
    cbn [Json.skip_ws Json.is_ws Json.dquote Ascii.eqb Bool.eqb orb andb] in Hpairs |- *.
    rewrite Hpairs, (dict_of_pairs_distinct _ Hkeys). reflexivity.
Qed.

Lemma append_nil_r (s : string) : s +:+ "" = s.
Proof. induction s as [| c s IH]; simpl; [reflexivity | rewrite IH; reflexivity]. Qed.

Lemma concat_cons_length (x : string) (l : list string) :
  String.length (String.concat ", " (x :: l)) =
  match l with
  | [] => String.length x
  | _ :: _ => (String.length x + 2 + String.length (String.concat ", " l))%nat
  end.
Proof.
  destruct l as [| y l]; [reflexivity |].
  cbn [String.concat]. rewrite !append_length. simpl (String.length ", "). lia.
Qed.

Lemma items_need_le (l : list pyval) :
  Forall (fun v => plain v = true -> (fuel_needed v <= String.length (Json.dumps v))%nat) l ->
  forallb plain l = true ->
  (items_need l <= String.length (String.concat ", " (map Json.dumps l)) + 1)%nat.
Proof.
  induction 1 as [| x l Hx Hl IH]; intros Hplain; [simpl; lia |].
  cbn [forallb] in Hplain. apply andb_true_iff in Hplain as [Hpx Hpl].
  cbn [items_need fold_right map]. fold (items_need l).
  rewrite concat_cons_length. specialize (Hx Hpx). specialize (IH Hpl).
  destruct l as [| y l']; cbn [map items_need fold_right] in *; lia.
Qed.

Lemma pairs_need_le (d : list (string * pyval)) :
  Forall (fun kv => plain (snd kv) = true ->
                    (fuel_needed (snd kv) <= String.length (Json.dumps (snd kv)))%nat) d ->
  forallb (fun kv => plain (snd kv)) d = true ->
  (pairs_need d <= String.length (String.concat ", " (map dumps_pair d)) + 1)%nat.
Proof.
  induction 1 as [| [k x] d Hx Hd IH]; intros Hplain; [simpl; lia |].
  cbn [forallb snd] in Hplain. apply andb_true_iff in Hplain as [Hpx Hpd].
  cbn [pairs_need fold_right map snd]. fold (pairs_need d).
  rewrite concat_cons_length. specialize (Hx Hpx). specialize (IH Hpd).
  assert (Hpair : (String.length (Json.dumps x) <= String.length (dumps_pair (k, x)))%nat).
  { unfold dumps_pair. rewrite !append_length. cbn [snd]. lia. }
  cbn [snd] in Hx.
  destruct d as [| kv' d']; cbn [map pairs_need fold_right] in *; lia.
Qed.

Lemma fuel_needed_le_length (v : pyval) :
  plain v = true -> (fuel_needed v <= String.length (Json.dumps v))%nat.
Proof.
  induction v as [| b | n | s | l Hl | d Hd] using pyval_nested_ind; intros Hplain.
  - simpl; lia.
  - destruct b; simpl; lia.
  - discriminate Hplain.
  - simpl; lia.
  - cbn [plain] in Hplain. pose proof (items_need_le l Hl Hplain) as Hle.
    cbn [fuel_needed Json.dumps]. fold (items_need l).
    rewrite !append_length. simpl String.length. lia.
  - cbn [plain] in Hplain. apply andb_true_iff in Hplain as [_ Hplain].
    pose proof (pairs_need_le d Hd Hplain) as Hle.
    cbn [fuel_needed]. fold (pairs_need d).
    change (Json.dumps (PDict d)) with ("{" +:+ String.concat ", " (map dumps_pair d) +:+ "}").
    rewrite !append_length. simpl String.length. lia.
Qed.

(** [json.loads(json.dumps(v))] is [v]. *)
Lemma loads_dumps (v : pyval) : plain v = true -> Json.loads (Json.dumps v) = Some v.
Proof.
  intros Hplain. unfold Json.loads.
  rewrite <- (append_nil_r (Json.dumps v)) at 2.
  rewrite (skip_ws_dumps v "" Hplain).
  rewrite (scan_once_dumps v Hplain).
  - reflexivity.
  - pose proof (fuel_needed_le_length v Hplain). lia.
Qed.

Lemma plain_model_dump (p : NetworkPolicy) : plain (model_dump p) = true.
Proof.
  unfold model_dump. destruct p as [[a |] rules]; cbn [default_action egress];
    cbn [plain app map fst snd forallb distinct existsb]; simpl String.eqb;
    rewrite ?andb_true_r; simpl;
    induction rules as [| r rules IH]; simpl; auto.
Qed.

Lemma rules_of_json_dump (rules : list NetworkRule) :
  rules_of_json (map NetworkRule_model_dump rules) = Some rules.
Proof.
  induction rules as [| [a t] rules IH]; [reflexivity |].
  cbn [map rules_of_json]. rewrite IH. reflexivity.
Qed.

Lemma policy_of_json_dump (p : NetworkPolicy) : policy_of_json (model_dump p) = Some p.
Proof.
  destruct p as [[a |] rules]; unfold policy_of_json, model_dump; simpl;
    rewrite rules_of_json_dump; reflexivity.
Qed.

(** C1: the sidecar has exactly one environment variable, named
    [OPENSANDBOX_EGRESS_RULES]; its value is valid JSON, and decoding it
    gives an object whose [defaultAction] and [egress] list of
    [{action, target}] entries are those of the policy, from which the
    policy is read back; a [default_action] that is [None] is left out
    of the object and not written as [null]. *)
Theorem egress_rules_round_trip (egress_image : string) (p : NetworkPolicy) :
  exists payload obj,
    getitem (build_egress_sidecar_container egress_image p) "env" =
      Some (PList [PDict [("name", PStr "OPENSANDBOX_EGRESS_RULES");
                          ("value", PStr payload)]]) /\
    Json.loads payload = Some obj /\
    getitem obj "defaultAction" = option_map PStr (default_action p) /\
    getitem obj "egress" =
      Some (PList (map (fun r => PDict [("action", PStr (action r));
                                        ("target", PStr (target r))])
                       (egress p))) /\
    keys obj = match default_action p with
               | Some _ => ["defaultAction"; "egress"]
               | None => ["egress"]
               end /\
    policy_of_json obj = Some p.
Proof.
  exists (Json.dumps (model_dump p)), (model_dump p).
  split; [reflexivity |].
  split; [apply loads_dumps, plain_model_dump |].
  split; [destruct p as [[a |] rules]; reflexivity |].
  split; [destruct p as [[a |] rules]; reflexivity |].
  split; [destruct p as [[a |] rules]; reflexivity | apply policy_of_json_dump].
Qed.

(** The scenario of the specification, decoded. *)
Example egress_rules_scenario :
  Json.loads (Json.dumps (model_dump deny_all_but_pypi)) =
    Some (PDict [("defaultAction", PStr "deny");
                 ("egress", PList [PDict [("action", PStr "allow");
                                          ("target", PStr "pypi.org")]])]).
Proof. vm_compute. reflexivity. Qed.

(** ** White space *)

(** [strip] removes white space at both ends and nothing else. *)
Lemma lstrip_trims (s : string) :
  exists l, s = l +:+ lstrip s /\ all_chars isspace l = true /\
            forall c, first_char (lstrip s) = Some c -> isspace c = false.
Proof.
  induction s as [| a s (l & E & Hl & Hfirst)]; simpl.
  - exists "". repeat split; discriminate.
  - destruct (isspace a) eqn:Ea.
    + exists (String a l). simpl. rewrite Ea, Hl, <- E. auto.
    + exists "". simpl. repeat split. intros c [= <-]. exact Ea.
Qed.

Lemma rstrip_trims (s : string) :
  exists r, s = rstrip s +:+ r /\ all_chars isspace r = true /\
            (forall c, last_char (rstrip s) = Some c -> isspace c = false) /\
            (rstrip s <> "" -> first_char (rstrip s) = first_char s).
Proof.
  induction s as [| a s (r & E & Hr & Hlast & Hfirst)]; simpl.
  - exists "". repeat split; try discriminate; try (intros H; contradiction).
  - destruct (rstrip s) as [| b t] eqn:Et.
    + simpl in E. subst r. destruct (isspace a) eqn:Ea.
      * exists (String a s). simpl. rewrite Ea, Hr.
        repeat split; try discriminate; try (intros H; contradiction).
      * exists s. simpl. repeat split; auto. intros c [= <-]. exact Ea.
    + exists r. simpl in E |- *. rewrite <- E. repeat split; auto.
Qed.

Lemma strip_trims (s : string) :
  exists l r, s = l +:+ strip s +:+ r /\
              all_chars isspace l = true /\ all_chars isspace r = true /\
              (forall c, first_char (strip s) = Some c -> isspace c = false) /\
              (forall c, last_char (strip s) = Some c -> isspace c = false).
Proof.
  unfold strip.
  destruct (lstrip_trims s) as (l & El & Hl & Hfirst).
  destruct (rstrip_trims (lstrip s)) as (r & Er & Hr & Hlast & Hkeep).
  exists l, r. repeat split; auto.
  - rewrite <- Er. exact El.
  - intros c Hc. apply Hfirst. rewrite <- Hkeep; [exact Hc |].
    intros E. rewrite E in Hc. discriminate.
Qed.

Lemma all_chars_append (p : ascii -> bool) (s t : string) :
  all_chars p (s +:+ t) = all_chars p s && all_chars p t.
Proof.
  induction s as [| c s IH]; simpl; [reflexivity |]. rewrite IH. apply andb_assoc.
Qed.








(** ** Request identifiers *)


(** A padded value is trimmed; a value of spaces only, an empty value
    and an absent one give the generated identifier. *)
Example request_id_of_padded_and_blank :
  request_id_of (Some " abc123 ") 0 = "abc123" /\
  request_id_of (Some "   ") 0 = uuid4_hex 0 /\
  request_id_of (Some "") 0 = uuid4_hex 0 /\
  request_id_of None 0 = uuid4_hex 0 /\
  uuid4_hex 0 = "00000000000040008000000000000000".
Proof. vm_compute. repeat split. Qed.

(** ** Numbers *)

(** Integers pass through the codec as well. *)
Example loads_dumps_integers :
  Json.loads (Json.dumps (PList [PInt (-12); PInt 0; PDict [("n", PInt 65535)]])) =
    Some (PList [PInt (-12); PInt 0; PDict [("n", PInt 65535)]]).
Proof. vm_compute. reflexivity. Qed.

(** * Further properties *)

(** ** Validators: what they raise *)

(** X1: each validator raises nothing but its own error, with HTTP
    status 400; [ensure_entrypoint] accepts exactly the non-empty lists
    and [validate_port] exactly the ports from 1 to 65535; the one other
    exception is the [OverflowError] of [ensure_future_expiration], which
    a naive timestamp never causes. *)
Theorem validators_raise_their_own_error :
  (forall entrypoint, ensure_entrypoint entrypoint = Return tt <-> entrypoint <> []) /\
  (forall entrypoint e, ensure_entrypoint entrypoint = Raise e ->
     entrypoint = [] /\ exists m, e = HTTPException 400 INVALID_ENTRYPOINT m) /\
  (forall port, validate_port port = Return tt <-> 1 <= port <= 65535) /\
  (forall port e, validate_port port = Raise e ->
     exists m, e = HTTPException 400 INVALID_PORT m) /\
  (forall metadata e, ensure_metadata_labels metadata = Raise e ->
     exists m, e = HTTPException 400 INVALID_METADATA_LABEL m) /\
  (forall now t e, ensure_future_expiration now t = Raise e ->
     (e = OverflowError /\ tzinfo t <> None) \/
     exists m, e = HTTPException 400 INVALID_EXPIRATION m).
Proof.
  split; [| split; [| split; [| split; [| split]]]].
  - intros [| x l]; simpl; split; intros H; try discriminate; try reflexivity; contradiction.
  - intros [| x l] e; simpl; intros [= <-]. split; [reflexivity | eexists; reflexivity].
  - intros port. unfold validate_port, ensure_valid_port.
    destruct (Z.ltb_spec port 1); destruct (Z.ltb_spec 65535 port); simpl;
      split; intros H'; try discriminate; try reflexivity; lia.
  - intros port e. unfold validate_port, ensure_valid_port.
    destruct (_ || _); intros [= <-]. eexists; reflexivity.
  - intros [items |] e; [| discriminate]. rewrite ensure_metadata_labels_items.
    intros H. destruct (check_items_outcome items) as [E | [m E]]; rewrite E in H.
    + discriminate.
    + injection H as <-. exists m; reflexivity.
  - intros now [w [off |]] e; unfold ensure_future_expiration; simpl.
    + unfold astimezone_utc. destruct (representable _); simpl.
      * destruct (datetime_le _ _); intros [= <-]. right; eexists; reflexivity.
      * intros [= <-]. left. split; [reflexivity | discriminate].
    + destruct (datetime_le _ _); intros [= <-]. right; eexists; reflexivity.
Qed.

(** ** Labels, character by character *)

Lemma lang_class_inv (p : ascii -> bool) (s : string) :
  lang (Class p) s -> exists c, s = String c "" /\ p c = true.
Proof. intros H. inversion H; subst. eexists; split; [reflexivity | assumption]. Qed.

Lemma lang_cat_inv (r1 r2 : regex) (s : string) :
  lang (Cat r1 r2) s -> exists s1 s2, s = s1 +:+ s2 /\ lang r1 s1 /\ lang r2 s2.
Proof. intros H. inversion H; subst. eexists; eexists; repeat split; assumption. Qed.

Lemma lang_opt_inv (r : regex) (s : string) : lang (Opt r) s -> s = "" \/ lang r s.
Proof.
  unfold Opt. intros H. inversion H; subst; [right; assumption | left].
  match goal with H0 : lang Eps _ |- _ => inversion H0; reflexivity end.
Qed.

Lemma lang_star_class (p : ascii -> bool) (s : string) :
  lang (Star (Class p)) s <-> all_chars p s = true.
Proof.
  split.
  - intros H. remember (Star (Class p)) as r eqn:Er.
    induction H; try discriminate; [reflexivity |].
    injection Er as ->. rewrite all_chars_append.
    match goal with H0 : lang (Class p) _ |- _ =>
      apply lang_class_inv in H0 as [c [-> Hc]] end.
    simpl. rewrite Hc. simpl. auto.
  - induction s as [| c s IH]; simpl; intros H; [constructor |].
    apply andb_true_iff in H as [Hc Hs].
    change (String c s) with (String c "" +:+ s). constructor; [constructor |]; auto.
Qed.

Lemma alnum_label_char (c : ascii) : alnum c = true -> label_char c = true.
Proof.
  unfold alnum, label_char. intros H.
  repeat (apply orb_true_iff in H as [H | H]); rewrite H; repeat rewrite orb_true_r; reflexivity.
Qed.

Lemma last_char_snoc (s : string) (c : ascii) : last_char (s +:+ String c "") = Some c.
Proof.
  induction s as [| a s IH]; [reflexivity |].
  simpl. destruct (s +:+ String c "") eqn:E; [destruct s; discriminate | exact IH].
Qed.

Lemma snoc_of_last (s : string) (c : ascii) :
  last_char s = Some c -> exists init, s = init +:+ String c "".
Proof.
  induction s as [| a s IH]; simpl; [discriminate |].
  destruct s as [| b s'].
  - intros [= <-]. exists "". reflexivity.
  - intros H. destruct (IH H) as [init E]. exists (String a init). simpl. rewrite <- E. reflexivity.
Qed.

(** The name pattern, spelled out. *)
Lemma label_name_lang (s : string) : lang LABEL_NAME_PATTERN s <-> label_name_shape s.
Proof.
  unfold LABEL_NAME_PATTERN, label_name_shape. split.
  - intros H. apply lang_cat_inv in H as (s1 & s2 & -> & H1 & H2).
    apply lang_class_inv in H1 as (c & -> & Hc). simpl.
    apply lang_opt_inv in H2 as [-> | H2].
    + simpl. rewrite (alnum_label_char c Hc). repeat split; eauto.
    + apply lang_cat_inv in H2 as (mid & t & -> & Hmid & Ht).
      apply lang_class_inv in Ht as (d & -> & Hd).
      apply lang_star_class in Hmid.
      rewrite all_chars_append, Hmid, (alnum_label_char c Hc). simpl.
      rewrite (alnum_label_char d Hd). repeat split; eauto.
      exists d. split; [| exact Hd].
      destruct (mid +:+ String d "") eqn:E; [destruct mid; discriminate |].
      rewrite <- E. apply last_char_snoc.
  - intros (Hall & (c & Hfirst & Hc) & (d & Hlast & Hd)).
    destruct s as [| a rest]; [discriminate |]. injection Hfirst as ->.
    change (String c rest) with (String c "" +:+ rest).
    constructor; [constructor; exact Hc |].
    destruct rest as [| b rest'].
    + apply lang_alt_r. constructor.
    + apply lang_alt_l.
      assert (Hlast' : last_char (String b rest') = Some d) by exact Hlast.
      destruct (snoc_of_last _ _ Hlast') as [mid E]. rewrite E in Hall |- *.
      constructor; [| constructor; exact Hd].
      apply lang_star_class. cbn [all_chars] in Hall. apply andb_true_iff in Hall as [_ Hall].
      rewrite all_chars_append in Hall. apply andb_true_iff in Hall as [Hmid _]. exact Hmid.
Qed.

(** X2: a label value without line feed is accepted exactly when it
    has at most 63 characters and is empty or consists of letters,
    digits, [-], [_] and [.] only, beginning and ending with a letter or
    a digit. *)
Theorem label_value_characters (value : string)
    (Hnl : contains line_feed value = false) :
  _is_valid_label_value value = true <->
  len value <= 63 /\ (value = "" \/ label_name_shape value).
Proof.
  rewrite (is_valid_label_value_iff value Hnl). unfold spec_valid_value.
  rewrite label_name_lang. reflexivity.
Qed.

Lemma label_value_characters_witness :
  _is_valid_label_value "v1.2_beta-3" = true.
Proof.
  apply (proj2 (label_value_characters "v1.2_beta-3" eq_refl)).
  split; [vm_compute; discriminate |]. right.
  split; [reflexivity |]. split; eexists; (split; [reflexivity | reflexivity]).
Defined.

Lemma label_name_re_nonempty (s : string) : LABEL_NAME_RE s = true -> 1 <= len s.
Proof.
  destruct s; [discriminate |]. intros _. unfold len. simpl String.length. lia.
Qed.

(** X3: an accepted label key has between 1 and 253 characters and a
    name part of between 1 and 63; with a prefix, the prefix has between
    1 and 251.  The prefix is always shorter than the key, so the
    separate test of the prefix length never decides. *)
Theorem label_key_bounds (key : string) :
  (_is_valid_label_key key = true ->
   1 <= len key <= 253 /\ 1 <= len (name_part key) <= 63 /\
   match split_slash key with
   | Some (prefix, _) => 1 <= len prefix <= 251
   | None => True
   end) /\
  match split_slash key with
  | Some (prefix, _) => len prefix < len key
  | None => True
  end.
Proof.
  unfold _is_valid_label_key, name_part.
  destruct (split_slash key) as [[prefix name] |] eqn:Es.
  - destruct (split_slash_parts _ _ _ Es) as [Hlen _].
    assert (Hp : 0 <= len prefix) by (unfold len; lia).
    assert (Hn : 0 <= len name) by (unfold len; lia).
    split; [| lia].
    destruct (Z.ltb_spec 253 (len key)); [discriminate |].
    destruct (Z.ltb_spec 253 (len prefix)); [discriminate |]. simpl.
    destruct (is_empty prefix) eqn:Ep; [discriminate |].
    destruct (is_empty name) eqn:En; [discriminate |]. simpl.
    destruct (DNS_SUBDOMAIN_RE prefix); [| discriminate]. simpl.
    destruct (Z.ltb_spec 63 (len name)); [discriminate |]. simpl.
    destruct (LABEL_NAME_RE name) eqn:El; [| discriminate]. intros _.
    apply label_name_re_nonempty in El.
    assert (1 <= len prefix).
    { destruct prefix; [discriminate |]. unfold len. simpl String.length. lia. }
    lia.
  - split; [| exact I].
    destruct (Z.ltb_spec 253 (len key)); [discriminate |]. simpl.
    destruct (Z.ltb_spec 63 (len key)); [discriminate |]. simpl.
    destruct (LABEL_NAME_RE key) eqn:El; [| discriminate]. intros _.
    apply label_name_re_nonempty in El. lia.
Qed.

Lemma contains_append (x : ascii) (s t : string) :
  contains x (s +:+ t) = contains x s || contains x t.
Proof.
  induction s as [| c s IH]; simpl; [reflexivity |]. rewrite IH. apply orb_assoc.
Qed.

Lemma avoids_lang (x : ascii) (r : regex) (w : string) :
  lang r w -> avoids x r = true -> contains x w = false.
Proof.
  induction 1; simpl; intros Ha; try reflexivity.
  - apply negb_true_iff in Ha. rewrite orb_false_r.
    destruct (Ascii.eqb_spec c x) as [-> | _]; [congruence | reflexivity].
  - apply andb_true_iff in Ha as [Ha1 Ha2].
    rewrite contains_append, IHlang1, IHlang2; auto.
  - apply andb_true_iff in Ha as [Ha1 _]. auto.
  - apply andb_true_iff in Ha as [_ Ha2]. auto.
  - rewrite contains_append, IHlang1, IHlang2; auto.
Qed.

Lemma chomp_with_line_feed (s : string) : chomp (with_line_feed s) = Some s.
Proof.
  unfold with_line_feed. induction s as [| c s IH]; [reflexivity |].
  simpl. simpl in IH. destruct (s +:+ String line_feed "") eqn:E.
  - destruct s; discriminate.
  - rewrite IH. reflexivity.
Qed.

Lemma match_anchored_line_feed (r : regex) (s : string) :
  avoids line_feed r = true -> contains line_feed s = false ->
  match_anchored r (with_line_feed s) = match_anchored r s.
Proof.
  intros Ha Hs. unfold match_anchored. rewrite chomp_with_line_feed.
  assert (Hfull : fullmatch r (with_line_feed s) = false).
  { destruct (fullmatch r (with_line_feed s)) eqn:E; [| reflexivity].
    apply fullmatch_lang in E. apply (avoids_lang line_feed) in E; [| exact Ha].
    unfold with_line_feed in E. rewrite contains_append in E. simpl in E.
    rewrite orb_true_r in E. discriminate. }
  rewrite Hfull. simpl.
  destruct (chomp s) as [s' |] eqn:Ec.
  - apply chomp_contains in Ec. congruence.
  - rewrite orb_false_r. reflexivity.
Qed.

Lemma len_with_line_feed (s : string) : len (with_line_feed s) = len s + 1.
Proof. unfold len, with_line_feed. rewrite append_length. simpl. lia. Qed.

Lemma split_slash_with_line_feed (key : string) :
  split_slash (with_line_feed key) =
  match split_slash key with
  | Some (prefix, name) => Some (prefix, with_line_feed name)
  | None => None
  end.
Proof.
  unfold with_line_feed. induction key as [| c key IH]; [reflexivity |].
  simpl. destruct (Ascii.eqb c "/"); [reflexivity |].
  rewrite IH. destruct (split_slash key) as [[p n] |]; reflexivity.
Qed.

Lemma is_empty_with_line_feed (s : string) : is_empty (with_line_feed s) = false.
Proof. destruct s; reflexivity. Qed.

Lemma label_name_re_empty_name (s : string) : is_empty s = true -> LABEL_NAME_RE (with_line_feed s) = false.
Proof. destruct s; [reflexivity | discriminate]. Qed.

(** X4: a line feed at the end goes unnoticed.  For a string without
    line feed, appending one changes neither the verdict on it as a label
    value (up to 62 characters) nor the verdict on it as a label key (up
    to 252 characters, the name part up to 62). *)
Theorem final_line_feed_goes_unnoticed (s : string)
    (Hnl : contains line_feed s = false) :
  (len s <= 62 ->
   _is_valid_label_value (with_line_feed s) = _is_valid_label_value s) /\
  (len s <= 252 -> len (name_part s) <= 62 ->
   _is_valid_label_key (with_line_feed s) = _is_valid_label_key s).
Proof.
  split.
  - intros Hlen. unfold _is_valid_label_value, LABEL_VALUE_RE.
    rewrite len_with_line_feed, (match_anchored_line_feed LABEL_VALUE_PATTERN s eq_refl Hnl).
    destruct (Z.ltb_spec 63 (len s + 1)); destruct (Z.ltb_spec 63 (len s)); try lia; reflexivity.
  - intros Hlen Hname. unfold _is_valid_label_key, name_part in *.
    rewrite split_slash_with_line_feed, len_with_line_feed.
    destruct (split_slash s) as [[prefix name] |] eqn:Es.
    + destruct (split_slash_parts _ _ _ Es) as [Hparts Hnls].
      destruct (Hnls Hnl) as [_ Hn].
      assert (Hp : 0 <= len prefix) by (unfold len; lia).
      assert (Hn0 : 0 <= len name) by (unfold len; lia).
      rewrite len_with_line_feed, is_empty_with_line_feed.
      unfold LABEL_NAME_RE at 1. rewrite (match_anchored_line_feed LABEL_NAME_PATTERN name eq_refl Hn).
      fold (LABEL_NAME_RE name).
      destruct (Z.ltb_spec 253 (len s + 1)); [lia |].
      destruct (Z.ltb_spec 253 (len s)); [lia |].
      destruct (Z.ltb_spec 253 (len prefix)); [lia |]. simpl.
      destruct (is_empty prefix); simpl; [reflexivity |].
      destruct (is_empty name) eqn:En; simpl.
      * destruct (DNS_SUBDOMAIN_RE prefix); simpl; [| reflexivity].
        destruct name; [| discriminate]. simpl. reflexivity.
      * destruct (DNS_SUBDOMAIN_RE prefix); simpl; [| reflexivity].
        destruct (Z.ltb_spec 63 (len name + 1)); destruct (Z.ltb_spec 63 (len name));
          try lia; reflexivity.
    + unfold LABEL_NAME_RE at 1. rewrite (match_anchored_line_feed LABEL_NAME_PATTERN s eq_refl Hnl).
      fold (LABEL_NAME_RE s).
      destruct (Z.ltb_spec 253 (len s + 1)); [lia |].
      destruct (Z.ltb_spec 253 (len s)); [lia |]. simpl.
      destruct (Z.ltb_spec 63 (len s + 1)); destruct (Z.ltb_spec 63 (len s));
        try lia; reflexivity.
Qed.

Lemma final_line_feed_goes_unnoticed_witness :
  _is_valid_label_value (with_line_feed "prod") = _is_valid_label_value "prod".
Proof.
  apply (proj1 (final_line_feed_goes_unnoticed "prod" eq_refl)).
  vm_compute. discriminate.
Defined.

Lemma check_items_app (a b : list (pyval * pyval)) :
  check_items (a ++ b) =
  match check_items a with
  | Return _ => check_items b
  | Raise e => Raise e
  end.
Proof.
  induction a as [| item a IH]; [reflexivity |].
  cbn [app check_items]. destruct (check_item item) as [[] | e]; [exact IH | reflexivity].
Qed.

(** X5: the entries are checked in iteration order and the first
    offending one decides: on two runs of entries one after the other,
    the validator raises what it raises on the first run, and otherwise
    does what it does on the second. *)
Theorem ensure_metadata_labels_in_order (a b : list (pyval * pyval)) :
  ensure_metadata_labels (Some (a ++ b)%list) =
  match ensure_metadata_labels (Some a) with
  | Return _ => ensure_metadata_labels (Some b)
  | Raise e => Raise e
  end.
Proof. rewrite !ensure_metadata_labels_items. apply check_items_app. Qed.

(** ** Expiration: what is returned *)

Lemma ensure_future_expiration_eq (now t : datetime) :
  representable (wall (to_utc t)) = true ->
  ensure_future_expiration now t =
    (if wall (to_utc t) <=? instant now then Raise INVALID_EXPIRATION_error
     else Return (to_utc t)).
Proof.
  intros Hrep. destruct t as [w [off |]];
    unfold ensure_future_expiration, to_utc, astimezone_utc in *; simpl in *.
  - rewrite Hrep. simpl. unfold datetime_le. unfold instant at 1. simpl.
    unfold utc. rewrite Z.sub_0_r. destruct (_ <=? _); reflexivity.
  - unfold datetime_le. unfold instant at 1. simpl.
    unfold utc. rewrite Z.sub_0_r. destruct (_ <=? _); reflexivity.
Qed.

Lemma ensure_future_expiration_in_range (now t n : datetime) :
  representable (wall t) = true ->
  ensure_future_expiration now t = Return n ->
  representable (wall (to_utc t)) = true.
Proof.
  intros Hvalid Hret. destruct t as [w [off |]]; [| exact Hvalid].
  unfold ensure_future_expiration, astimezone_utc, to_utc in *. simpl in *.
  destruct (representable (w - off)); [reflexivity | discriminate].
Qed.

Lemma to_utc_again (t : datetime) : to_utc (to_utc t) = to_utc t.
Proof. unfold to_utc, utc. simpl. rewrite Z.sub_0_r. reflexivity. Qed.

Lemma instant_to_utc (t : datetime) : instant (to_utc t) = instant t.
Proof. destruct t as [w [off |]]; unfold instant, to_utc, utc; simpl; lia. Qed.

(** X6: when [ensure_future_expiration] returns for a datetime [t], the
    result is tagged UTC, is the instant of [t], lies strictly after
    [now], passes the validator again unchanged, and would have been
    returned at every earlier [now] too. *)
Theorem ensure_future_expiration_returned (now t n : datetime)
    (Hvalid : representable (wall t) = true)
    (Hret : ensure_future_expiration now t = Return n) :
  tzinfo n = Some utc /\
  representable (wall n) = true /\
  instant n = instant t /\
  instant now < instant n /\
  ensure_future_expiration now n = Return n /\
  (forall earlier, instant earlier <= instant now ->
     ensure_future_expiration earlier t = Return n).
Proof.
  pose proof (ensure_future_expiration_in_range now t n Hvalid Hret) as Hrep.
  rewrite (ensure_future_expiration_eq now t Hrep) in Hret.
  destruct (Z.leb_spec (wall (to_utc t)) (instant now)) as [Hle | Hlt]; [discriminate |].
  injection Hret as <-.
  assert (Hw : wall (to_utc t) = instant t).
  { rewrite <- instant_to_utc. unfold instant, to_utc, utc. simpl. lia. }
  split; [reflexivity |]. split; [exact Hrep |]. split; [apply instant_to_utc |].
  split; [rewrite instant_to_utc; lia |]. split.
  - rewrite ensure_future_expiration_eq; rewrite to_utc_again; [| exact Hrep].
    destruct (Z.leb_spec (wall (to_utc t)) (instant now)); [lia | reflexivity].
  - intros earlier He. rewrite (ensure_future_expiration_eq earlier t Hrep).
    destruct (Z.leb_spec (wall (to_utc t)) (instant earlier)); [lia | reflexivity].
Qed.

Lemma ensure_future_expiration_returned_witness :
  instant new_year_2026 <
  instant {| wall := 739616 * 86400 * 1000000 + 3600 * 1000000; tzinfo := Some utc |}.
Proof.
  exact (proj1 (proj2 (proj2 (proj2
    (ensure_future_expiration_returned new_year_2026
       {| wall := 739616 * 86400 * 1000000 + 9 * 3600 * 1000000;
          tzinfo := Some (8 * 3600 * 1000000) |}
       {| wall := 739616 * 86400 * 1000000 + 3600 * 1000000; tzinfo := Some utc |}
       eq_refl eq_refl))))).
Defined.

(** ** Request identifiers: what is assigned *)

Lemma strip_of_trimmed (s : string) : trimmed s -> strip s = s.
Proof.
  intros [Hfirst Hlast]. unfold strip.
  assert (Hl : lstrip s = s).
  { destruct s as [| c s']; [reflexivity |]. simpl. rewrite (Hfirst c eq_refl). reflexivity. }
  rewrite Hl. clear Hl Hfirst.
  induction s as [| c s' IH]; [reflexivity |].
  simpl. destruct s' as [| b t].
  - simpl. rewrite (Hlast c eq_refl). reflexivity.
  - rewrite IH; [reflexivity | exact Hlast].
Qed.

Lemma strip_is_trimmed (s : string) : trimmed (strip s).
Proof. destruct (strip_trims s) as (l & r & _ & _ & _ & Hfirst & Hlast). split; assumption. Qed.

Lemma hex_char_not_space (c : ascii) : is_hex_char c = true -> isspace c = false.
Proof. destruct c as [[] [] [] [] [] [] [] []]; simpl; intros H; try reflexivity; discriminate H. Qed.

Lemma last_char_all (p : ascii -> bool) (s : string) (c : ascii) :
  all_chars p s = true -> last_char s = Some c -> p c = true.
Proof.
  induction s as [| a s IH]; simpl; [discriminate |].
  intros H. apply andb_true_iff in H as [Ha Hs].
  destruct s as [| b t]; [intros [= <-]; exact Ha | apply IH; exact Hs].
Qed.

Lemma uuid4_hex_trimmed (r : N) : trimmed (uuid4_hex r).
Proof.
  pose proof (hex_fixed_all_hex 32 (uuid4 r)) as Hall. fold (uuid4_hex r) in Hall.
  split; intros c Hc; apply hex_char_not_space.
  - destruct (uuid4_hex r) as [| a s]; [discriminate |]. injection Hc as <-.
    simpl in Hall. apply andb_true_iff in Hall as [Ha _]. exact Ha.
  - eapply last_char_all; eauto.
Qed.

Lemma request_id_of_trimmed (raw : option string) (r : N) : trimmed (request_id_of raw r).
Proof.
  unfold request_id_of. destruct raw as [v |]; [| apply uuid4_hex_trimmed].
  destruct (truthy v && truthy (strip v)); [apply strip_is_trimmed | apply uuid4_hex_trimmed].
Qed.

(** X7: the assigned request ID is never empty and never begins or
    ends with white space; sent on as the [X-Request-ID] of a further
    request, it is assigned again unchanged, whatever the generator
    would draw there. *)
Theorem request_id_is_stable (raw : option string) (r r' : N) :
  request_id_of raw r <> "" /\
  trimmed (request_id_of raw r) /\
  request_id_of (Some (request_id_of raw r)) r' = request_id_of raw r.
Proof.
  pose proof (request_id_of_truthy raw r) as Ht.
  pose proof (request_id_of_trimmed raw r) as Htr.
  split; [apply truthy_nonempty; exact Ht |]. split; [exact Htr |].
  unfold request_id_of at 1. rewrite (strip_of_trimmed _ Htr), Ht. reflexivity.
Qed.

(** ** Request identifiers: what the response keeps *)

Lemma headers_find_remove_other (key other : string) (l : Headers) :
  other <> key -> headers_find other (headers_remove key l) = headers_find other l.
Proof.
  intros Hne. induction l as [| [k v] l IH]; [reflexivity |]. simpl.
  destruct (String.eqb_spec k key) as [-> | Hk]; simpl.
  - destruct (String.eqb_spec key other) as [E | _]; [congruence | exact IH].
  - rewrite IH. reflexivity.
Qed.

Lemma headers_find_replace_other (key value other : string) (l : Headers) :
  other <> key -> headers_find other (headers_replace key value l) = headers_find other l.
Proof.
  intros Hne. induction l as [| [k v] l IH]; simpl.
  - destruct (String.eqb_spec key other) as [E | _]; [congruence | reflexivity].
  - destruct (String.eqb_spec k key) as [-> | Hk]; simpl.
    + destruct (String.eqb_spec key other) as [E | _]; [congruence |].
      apply headers_find_remove_other; exact Hne.
    + rewrite IH. reflexivity.
Qed.

Lemma count_headers_remove (key : string) (l : Headers) :
  count_headers key (headers_remove key l) = O.
Proof.
  unfold count_headers. induction l as [| [k v] l IH]; [reflexivity |]. simpl.
  destruct (String.eqb k key) eqn:E; [exact IH |]. simpl. rewrite E. exact IH.
Qed.

Lemma count_headers_replace (key value : string) (l : Headers) :
  count_headers key (headers_replace key value l) = 1%nat.
Proof.
  induction l as [| [k v] l IH]; unfold count_headers in *; simpl.
  - rewrite String.eqb_refl. reflexivity.
  - destruct (String.eqb k key) eqn:E; simpl.
    + rewrite String.eqb_refl. simpl. f_equal. apply count_headers_remove.
    + rewrite E. exact IH.
Qed.

Lemma headers_replace_in (key value : string) (l : Headers) :
  List.In (key, value) (headers_replace key value l).
Proof.
  induction l as [| [k v] l IH]; simpl; [left; reflexivity |].
  destruct (String.eqb k key); [left; reflexivity | right; exact IH].
Qed.

Lemma other_headers_remove (key : string) (l : Headers) :
  other_headers key (headers_remove key l) = other_headers key l.
Proof.
  unfold other_headers. induction l as [| [k v] l IH]; [reflexivity |]. simpl.
  destruct (String.eqb k key) eqn:E; simpl; [exact IH |]. rewrite E. simpl.
  f_equal. exact IH.
Qed.

Lemma other_headers_replace (key value : string) (l : Headers) :
  other_headers key (headers_replace key value l) = other_headers key l.
Proof.
  induction l as [| [k v] l IH]; unfold other_headers in *; simpl.
  - rewrite String.eqb_refl. reflexivity.
  - destruct (String.eqb k key) eqn:E; simpl.
    + rewrite String.eqb_refl. simpl. apply other_headers_remove.
    + rewrite E. simpl. f_equal. exact IH.
Qed.

(** X8: [dispatch] changes one thing in the response it passes on:
    afterwards there is exactly one [X-Request-ID] header, however many
    the application had set, and it holds the request ID; the status,
    the body and every header of another name are as the application
    left them: the headers of other names are the same list, each with
    its value, repeated names included, in the same order. *)
Theorem dispatch_touches_one_header (r : N) (request : Request)
    (call_next : Request -> Context -> result Response) (ctx : Context)
    (response response' : Response)
    (Hrun : dispatch r request call_next ctx = (Return response', ctx))
    (Hnext : call_next request
               (Some (request_id_of
                        (headers_get X_REQUEST_ID_HEADER (request_headers request)) r))
             = Return response) :
  count_headers (lower X_REQUEST_ID_HEADER) (response_headers response') = 1%nat /\
  response_status response' = response_status response /\
  response_body response' = response_body response /\
  (forall key, lower key <> lower X_REQUEST_ID_HEADER ->
     headers_get key (response_headers response') =
     headers_get key (response_headers response)) /\
  other_headers (lower X_REQUEST_ID_HEADER) (response_headers response') =
    other_headers (lower X_REQUEST_ID_HEADER) (response_headers response) /\
  List.In (lower X_REQUEST_ID_HEADER,
           request_id_of (headers_get X_REQUEST_ID_HEADER (request_headers request)) r)
          (response_headers response').
Proof.
  unfold dispatch in Hrun. rewrite Hnext in Hrun. injection Hrun as <-. simpl.
  split; [apply count_headers_replace |]. split; [reflexivity |]. split; [reflexivity |].
  split.
  - intros key Hkey. unfold headers_get, headers_set.
    apply headers_find_replace_other. exact Hkey.
  - split; [apply other_headers_replace |].
    unfold headers_set. apply headers_replace_in.
Qed.

Lemma dispatch_touches_one_header_witness :
  count_headers (lower X_REQUEST_ID_HEADER)
    (response_headers
       {| response_status := 200;
          response_headers :=
            headers_set X_REQUEST_ID_HEADER "abc123"
              [("x-request-id", "stale"); ("content-type", "text/plain");
               ("x-request-id", "staler")];
          response_body := "ok" |}) = 1%nat.
Proof.
  exact (proj1 (dispatch_touches_one_header 0
    {| request_headers := [("x-request-id", " abc123 ")]; request_body := "" |}
    (fun _ _ => Return {| response_status := 200;
                          response_headers :=
                            [("x-request-id", "stale"); ("content-type", "text/plain");
                             ("x-request-id", "staler")];
                          response_body := "ok" |})
    None
    {| response_status := 200;
       response_headers :=
         [("x-request-id", "stale"); ("content-type", "text/plain");
          ("x-request-id", "staler")];
       response_body := "ok" |}
    _ eq_refl eq_refl)).
Defined.

(** ** Sandbox identifiers *)

Lemma uuid4_variant_nibble (r : N) :
  In (nibble (uuid4 r) 15) [8%N; 9%N; 10%N; 11%N].
Proof.
  pose proof (nibble_bound (uuid4 r) 15) as Hlt.
  assert (H3 : N.testbit (nibble (uuid4 r) 15) 3 = true).
  { unfold nibble. rewrite N.land_spec, N.shiftr_spec by apply N.le_0_l.
    unfold uuid4. rewrite N.lor_spec, N.ldiff_spec, N.lor_spec. simpl.
    rewrite ?andb_true_r, ?orb_true_r. reflexivity. }
  assert (H2 : N.testbit (nibble (uuid4 r) 15) 2 = false).
  { unfold nibble. rewrite N.land_spec, N.shiftr_spec by apply N.le_0_l.
    unfold uuid4. rewrite N.lor_spec, N.ldiff_spec, N.lor_spec, N.ldiff_spec. simpl.
    rewrite ?andb_false_r, ?andb_true_r, ?orb_false_r. reflexivity. }
  assert (Hd : In (nibble (uuid4 r) 15) (map N.of_nat (seq 0 16))).
  { replace (nibble (uuid4 r) 15) with (N.of_nat (N.to_nat (nibble (uuid4 r) 15)))
      by apply N2Nat.id.
    apply in_map, in_seq. lia. }
  simpl in Hd.
  repeat (destruct Hd as [Hd | Hd];
          [rewrite <- Hd in H3, H2 |- *; simpl in H3, H2;
           first [discriminate | simpl; tauto] |]).
  contradiction.
Qed.

Lemma hex_char_not_hyphen (c : ascii) : is_hex_char c = true -> Ascii.eqb c "-" = false.
Proof. destruct c as [[] [] [] [] [] [] [] []]; simpl; intros H; try reflexivity; discriminate H. Qed.

Lemma without_hyphens_append (a b : string) :
  without_hyphens (a +:+ b) = without_hyphens a +:+ without_hyphens b.
Proof.
  induction a as [| c a IH]; [reflexivity |].
  simpl. destruct (Ascii.eqb c "-"); simpl; rewrite IH; reflexivity.
Qed.

Lemma without_hyphens_hex (s : string) :
  all_chars is_hex_char s = true -> without_hyphens s = s.
Proof.
  induction s as [| c s IH]; [reflexivity |]. simpl. intros H.
  apply andb_true_iff in H as [Hc Hs].
  rewrite (hex_char_not_hyphen c Hc), (IH Hs). reflexivity.
Qed.

Lemma all_chars_substring (p : ascii -> bool) (s : string) :
  all_chars p s = true -> forall n m, all_chars p (String.substring n m s) = true.
Proof.
  induction s as [| c s IH]; intros H n m.
  - destruct n, m; reflexivity.
  - simpl in H. apply andb_true_iff in H as [Hc Hs].
    destruct n as [| n]; [destruct m as [| m]; [reflexivity |] |]; simpl.
    + rewrite Hc. apply IH, Hs.
    + apply IH, Hs.
Qed.

Lemma substring_append (s : string) :
  forall k n m,
    String.substring k n s +:+ String.substring (k + n) m s = String.substring k (n + m) s.
Proof.
  induction s as [| c s IH]; intros k n m.
  - destruct k, n, m; reflexivity.
  - destruct k as [| k].
    + destruct n as [| n]; [reflexivity |].
      simpl. rewrite <- (IH 0%nat n m). reflexivity.
    + simpl. apply IH.
Qed.

Lemma substring_whole (s : string) : String.substring 0 (String.length s) s = s.
Proof. induction s as [| c s IH]; [reflexivity |]. simpl. rewrite IH. reflexivity. Qed.

Lemma uuid_str_without_hyphens (hex : string) :
  String.length hex = 32%nat -> all_chars is_hex_char hex = true ->
  without_hyphens (uuid_str hex) = hex.
Proof.
  intros Hlen Hall. unfold uuid_str.
  rewrite !without_hyphens_append.
  change (without_hyphens "-") with "".
  cbn [String.append].
  rewrite !without_hyphens_hex by (apply all_chars_substring; exact Hall).
  rewrite (substring_append hex 16 4 12 :
             String.substring 16 4 hex +:+ String.substring 20 12 hex =
             String.substring 16 16 hex).
  rewrite (substring_append hex 12 4 16 :
             String.substring 12 4 hex +:+ String.substring 16 16 hex =
             String.substring 12 20 hex).
  rewrite (substring_append hex 8 4 20 :
             String.substring 8 4 hex +:+ String.substring 12 20 hex =
             String.substring 8 24 hex).
  rewrite (substring_append hex 0 8 24 :
             String.substring 0 8 hex +:+ String.substring 8 24 hex =
             String.substring 0 32 hex).
  rewrite <- Hlen. apply substring_whole.
Qed.

(** X9: a generated sandbox ID is a canonical version-4 UUID: 36
    characters, hyphens in places 8, 13, 18 and 23, the version digit 4
    in place 14, one of 8, 9, a, b in place 19, lower-case hexadecimal
    digits elsewhere; without the hyphens it is the [hex] of the same
    UUID. *)
Theorem generate_sandbox_id_shape (r : N) :
  String.length (generate_sandbox_id r) = 36%nat /\
  uuid_shape_from 0 (generate_sandbox_id r) = true /\
  without_hyphens (generate_sandbox_id r) = uuid4_hex r.
Proof.
  assert (Hhex : forall i, is_hex_char (Json.hex_digit (nibble (uuid4 r) i)) = true)
    by (intros i; apply hex_digit_is_hex, nibble_bound).
  split; [reflexivity |]. split.
  - unfold generate_sandbox_id, uuid_str.
    cbn [hex_fixed String.substring String.append uuid_shape_from is_hyphen_place Nat.eqb orb].
    rewrite !Hhex, uuid4_version_nibble.
    destruct (uuid4_variant_nibble r) as [<- | [<- | [<- | [<- | []]]]]; reflexivity.
  - unfold generate_sandbox_id, uuid4_hex.
    apply uuid_str_without_hyphens; [apply hex_fixed_length | apply hex_fixed_all_hex].
Qed.

(** ** Bind-IP resolution: what the answer depends on *)

(** X10: the resolution for [AF_INET] looks at nothing but the local
    address of the probe to 8.8.8.8 port 80 and the IPv4 addresses of the
    host name: two networks that agree on these get the same answer,
    whatever their IPv6 side. *)
Theorem resolve_bind_ip_inet_ignores_ipv6 (net net' : Network)
    (Hprobe : udp_local_address net AF_INET ("8.8.8.8", 80) =
              udp_local_address net' AF_INET ("8.8.8.8", 80))
    (Hname : getaddrinfo net AF_INET = getaddrinfo net' AF_INET) :
  _resolve_bind_ip net AF_INET = _resolve_bind_ip net' AF_INET.
Proof.
  unfold _resolve_bind_ip, resolve_body, hostname_fallback, probe_target.
  cbn [is_inet6 negb orb andb]. rewrite Hprobe, Hname. reflexivity.
Qed.

Lemma resolve_bind_ip_inet_ignores_ipv6_witness :
  _resolve_bind_ip dual_stack AF_INET = _resolve_bind_ip ipv4_only AF_INET.
Proof.
  apply resolve_bind_ip_inet_ignores_ipv6; reflexivity.
Defined.

(** X11: a link-local address is never taken from the IPv6 probe.
    When the resolution for [AF_INET6] yields an address that starts with
    [fe80], either the probe raised [OSError], and the address is the
    answer of the [AF_INET] resolution, or it is the first address the
    host name has for [AF_INET6]. *)
Theorem link_local_not_from_probe (net : Network) (ip : string)
    (Hres : _resolve_bind_ip net AF_INET6 = ip)
    (Hll : startswith ip "fe80" = true) :
  (udp_local_address net AF_INET6 ("2001:4860:4860::8888", 80) = OSError /\
   _resolve_bind_ip net AF_INET = ip) \/
  (exists more, getaddrinfo net AF_INET6 = Answer (ip :: more)).
Proof.
  unfold _resolve_bind_ip in Hres. unfold resolve_body at 1 in Hres. simpl in Hres.
  destruct (udp_local_address net AF_INET6 _) as [probe |].
  - right. destruct (truthy probe && negb (startswith probe "fe80")) eqn:E.
    + subst ip. apply andb_true_iff in E as [_ E]. rewrite Hll in E. discriminate.
    + unfold hostname_fallback in Hres. simpl in Hres.
      destruct (getaddrinfo net AF_INET6) as [[| addr more] |];
        try (subst ip; discriminate Hll).
      destruct (truthy addr); [subst addr; eexists; reflexivity | subst ip; discriminate Hll].
  - left. split; [reflexivity | exact Hres].
Qed.

Lemma link_local_not_from_probe_witness :
  (udp_local_address link_local_only AF_INET6 ("2001:4860:4860::8888", 80) = OSError /\
   _resolve_bind_ip link_local_only AF_INET = "fe80::1") \/
  (exists more, getaddrinfo link_local_only AF_INET6 = Answer ("fe80::1" :: more)).
Proof.
  apply (link_local_not_from_probe link_local_only "fe80::1"); reflexivity.
Defined.

(** ** The egress rules as text *)

Lemma escape_char_printable (c : ascii) : all_chars printable (Json.escape_char c) = true.
Proof. destruct c as [[] [] [] [] [] [] [] []]; reflexivity. Qed.

Lemma escape_printable (s : string) : all_chars printable (Json.escape s) = true.
Proof.
  induction s as [| c s IH]; [reflexivity |].
  cbn [Json.escape]. rewrite all_chars_append, escape_char_printable, IH. reflexivity.
Qed.

Lemma encode_printable (s : string) :
  all_chars printable (Json.encode_basestring_ascii s) = true.
Proof.
  unfold Json.encode_basestring_ascii. cbn [all_chars].
  rewrite all_chars_append, escape_printable. reflexivity.
Qed.

Lemma concat_printable (l : list string) :
  Forall (fun s => all_chars printable s = true) l ->
  all_chars printable (String.concat ", " l) = true.
Proof.
  induction 1 as [| x l Hx Hl IH]; [reflexivity |].
  destruct l as [| y l']; [exact Hx |].
  cbn [String.concat]. rewrite !all_chars_append, Hx. cbn [String.concat] in IH.
  rewrite IH. reflexivity.
Qed.

Lemma dumps_printable (v : pyval) :
  plain v = true -> all_chars printable (Json.dumps v) = true.
Proof.
  induction v as [| b | n | s | l Hl | d Hd] using pyval_nested_ind; intros Hplain.
  - reflexivity.
  - destruct b; reflexivity.
  - discriminate Hplain.
  - apply encode_printable.
  - cbn [Json.dumps]. rewrite !all_chars_append. cbn [plain] in Hplain.
    rewrite concat_printable; [reflexivity |].
    apply Forall_map. rewrite forallb_forall in Hplain.
    rewrite List.Forall_forall in Hl |- *. intros x Hx. apply (Hl x Hx), Hplain, Hx.
  - cbn [Json.dumps]. rewrite !all_chars_append. cbn [plain] in Hplain.
    apply andb_true_iff in Hplain as [_ Hplain].
    rewrite concat_printable; [reflexivity |].
    apply Forall_map. rewrite forallb_forall in Hplain.
    rewrite List.Forall_forall in Hd |- *. intros [k x] Hx.
    rewrite !all_chars_append, encode_printable. simpl.
    apply (Hd (k, x) Hx), (Hplain (k, x) Hx).
Qed.

(** X12: whatever characters the policy holds, the value written to
    [OPENSANDBOX_EGRESS_RULES] consists of printable ASCII only: no
    control character, no line break, nothing above the tilde. *)
Theorem egress_rules_are_printable (egress_image : string) (p : NetworkPolicy) :
  exists payload,
    first_env_value (build_egress_sidecar_container egress_image p) = Some payload /\
    all_chars printable payload = true.
Proof.
  exists (Json.dumps (model_dump p)). split; [reflexivity |].
  apply dumps_printable, plain_model_dump.
Qed.

(** X13: the sidecar specification determines the image and the
    policy it was built from: two calls that give the same container were
    given the same image and the same policy. *)
Theorem egress_sidecar_determines_policy (image image' : string) (p p' : NetworkPolicy)
    (Hsame : build_egress_sidecar_container image p =
             build_egress_sidecar_container image' p') :
  image = image' /\ p = p'.
Proof.
  assert (Himage : Some (PStr image) = Some (PStr image'))
    by exact (f_equal (fun c => getitem c "image") Hsame).
  assert (Hpayload : Some (Json.dumps (model_dump p)) = Some (Json.dumps (model_dump p')))
    by exact (f_equal first_env_value Hsame).
  assert (Hdump : Some (model_dump p) = Some (model_dump p')).
  { rewrite <- (loads_dumps (model_dump p)), <- (loads_dumps (model_dump p'))
      by apply plain_model_dump.
    exact (f_equal (fun o => match o with Some s => Json.loads s | None => None end) Hpayload). }
  split; [congruence |].
  assert (Hpolicy : Some p = Some p').
  { rewrite <- (policy_of_json_dump p), <- (policy_of_json_dump p').
    exact (f_equal (fun o => match o with Some v => policy_of_json v | None => None end) Hdump). }
  congruence.
Qed.

Lemma egress_sidecar_determines_policy_witness :
  "opensandbox/egress:v1" = "opensandbox/egress:v1" /\ deny_all_but_pypi = deny_all_but_pypi.
Proof.
  apply (egress_sidecar_determines_policy "opensandbox/egress:v1" "opensandbox/egress:v1"
           deny_all_but_pypi deny_all_but_pypi eq_refl).
Defined.

(** ** Command status: no sentinel survives *)

(** X14: no field of a converted [CommandStatus] holds the [Unset]
    sentinel, and two wire responses convert to the same status exactly
    when they agree field by field up to the difference between [Unset]
    and [None]. *)
Theorem to_command_status_drops_sentinel (raw raw' : CommandStatusResponse) :
  (id (to_command_status raw) <> AUnset /\
   content (to_command_status raw) <> AUnset /\
   running (to_command_status raw) <> AUnset /\
   exit_code (to_command_status raw) <> AUnset /\
   error (to_command_status raw) <> AUnset /\
   started_at (to_command_status raw) <> AUnset /\
   finished_at (to_command_status raw) <> AUnset) /\
  (to_command_status raw = to_command_status raw' <->
   same_unwrapped (raw_id raw) (raw_id raw') /\
   same_unwrapped (raw_content raw) (raw_content raw') /\
   same_unwrapped (raw_running raw) (raw_running raw') /\
   same_unwrapped (raw_exit_code raw) (raw_exit_code raw') /\
   same_unwrapped (raw_error raw) (raw_error raw') /\
   same_unwrapped (raw_started_at raw) (raw_started_at raw') /\
   same_unwrapped (raw_finished_at raw) (raw_finished_at raw')).
Proof.
  assert (Hne : forall a, _unwrap_optional a <> AUnset) by (intros []; discriminate).
  assert (Hsame : forall a b, _unwrap_optional a = _unwrap_optional b <-> same_unwrapped a b).
  { intros a b. unfold same_unwrapped. split.
    - destruct a, b; simpl; intros H; try discriminate H; auto.
    - intros [-> | [[-> ->] | [-> ->]]]; reflexivity. }
  split.
  - destruct raw; simpl. repeat split; apply Hne.
  - destruct raw, raw'; unfold to_command_status; simpl. split.
    + intros H. injection H as H1 H2 H3 H4 H5 H6 H7.
      repeat split; apply Hsame; assumption.
    + intros (H1 & H2 & H3 & H4 & H5 & H6 & H7).
      apply Hsame in H1, H2, H3, H4, H5, H6, H7. congruence.
Qed.

(** ** Volumes as dicts *)

Section VolumeDicts.

Variables Host PVC : Type.
Variable Host_to_dict : Host -> pyval.
Variable Host_from_dict : pyval -> option Host.
Variable PVC_to_dict : PVC -> pyval.
Variable PVC_from_dict : pyval -> option PVC.

(** [from_dict] in terms of what the dict holds under each key. *)
Lemma from_dict_lookups (d : gmap string pyval) :
  Volume.from_dict Host PVC Host_from_dict PVC_from_dict d =
  match d !! "name", d !! "mountPath" with
  | Some name, Some mount_path =>
      name ← Volume.as_str name;
      mount_path ← Volume.as_str mount_path;
      host ← Volume.read_unset Host_from_dict
                (match d !! "host" with Some v => Volume.Given v | None => Volume.UNSET end);
      pvc ← Volume.read_unset PVC_from_dict
               (match d !! "pvc" with Some v => Volume.Given v | None => Volume.UNSET end);
      read_only ← Volume.read_unset Volume.as_bool
                     (match d !! "readOnly" with Some v => Volume.Given v | None => Volume.UNSET end);
      sub_path ← Volume.read_unset Volume.as_str
                    (match d !! "subPath" with Some v => Volume.Given v | None => Volume.UNSET end);
      Some {| Volume.name := name; Volume.mount_path := mount_path;
              Volume.host := host; Volume.pvc := pvc;
              Volume.read_only := read_only; Volume.sub_path := sub_path |}
  | _, _ => None
  end.
Proof.
  unfold Volume.from_dict, Volume.pop, Volume.pop_default.
  destruct (d !! "name") as [vn |] eqn:En; [| reflexivity]. simpl.
  destruct (Volume.as_str vn) as [n |]; simpl.
  2:{ destruct (d !! "mountPath"); reflexivity. }
  rewrite lookup_delete_ne by discriminate.
  destruct (d !! "mountPath") as [vm |] eqn:Em; [| reflexivity]. simpl.
  destruct (Volume.as_str vm) as [m |]; simpl; [| reflexivity].
  rewrite !lookup_delete_ne by discriminate.
  destruct (d !! "host") as [vh |] eqn:Eh; simpl;
    [destruct (Host_from_dict vh) as [h |]; simpl; [| reflexivity] |];
    rewrite !lookup_delete_ne by discriminate;
    (destruct (d !! "pvc") as [vp |] eqn:Ep; simpl;
     [destruct (PVC_from_dict vp) as [c |]; simpl; [| reflexivity] |];
     rewrite !lookup_delete_ne by discriminate;
     (destruct (d !! "readOnly") as [vr |] eqn:Er; simpl;
      [destruct (Volume.as_bool vr) as [b |]; simpl; [| reflexivity] |];
      rewrite !lookup_delete_ne by discriminate;
      destruct (d !! "subPath") as [vs |] eqn:Esp; simpl; reflexivity)).
Qed.

(** What the dict of a volume holds under each key. *)
Lemma to_dict_lookups (v : Volume.Volume Host PVC) :
  let d := Volume.to_dict Host PVC Host_to_dict PVC_to_dict v in
  d !! "name" = Some (PStr (Volume.name Host PVC v)) /\
  d !! "mountPath" = Some (PStr (Volume.mount_path Host PVC v)) /\
  d !! "host" = match Volume.host Host PVC v with
                | Volume.UNSET => None
                | Volume.Given h => Some (Host_to_dict h)
                end /\
  d !! "pvc" = match Volume.pvc Host PVC v with
               | Volume.UNSET => None
               | Volume.Given c => Some (PVC_to_dict c)
               end /\
  d !! "readOnly" = match Volume.read_only Host PVC v with
                    | Volume.UNSET => None
                    | Volume.Given b => Some (PBool b)
                    end /\
  d !! "subPath" = match Volume.sub_path Host PVC v with
                   | Volume.UNSET => None
                   | Volume.Given s => Some (PStr s)
                   end /\
  (forall key, ~ In key volume_keys -> d !! key = None).
Proof.
  destruct v as [n m [| h] [| c] [| ro] [| sp]];
    unfold Volume.to_dict, Volume.set_unless_unset, Volume.fmap_unset;
    cbn [Volume.name Volume.mount_path Volume.host Volume.pvc
         Volume.read_only Volume.sub_path];
    (repeat split; [simplify_map_eq; reflexivity .. |]);
    intros key Hkey; unfold volume_keys in Hkey; simpl in Hkey;
    rewrite ?lookup_insert_ne by (intros <-; apply Hkey; tauto);
    apply lookup_empty.
Qed.

(** X15: a volume's dict has the keys [name] and [mountPath] always,
    and each of [host], [pvc], [readOnly] and [subPath] exactly when the
    field is set; a field that is [UNSET] leaves no key behind, and there
    is no other key. *)
Theorem to_dict_keys (v : Volume.Volume Host PVC) :
  let d := Volume.to_dict Host PVC Host_to_dict PVC_to_dict v in
  d !! "name" = Some (PStr (Volume.name Host PVC v)) /\
  d !! "mountPath" = Some (PStr (Volume.mount_path Host PVC v)) /\
  d !! "host" = match Volume.host Host PVC v with
                | Volume.UNSET => None
                | Volume.Given h => Some (Host_to_dict h)
                end /\
  d !! "pvc" = match Volume.pvc Host PVC v with
               | Volume.UNSET => None
               | Volume.Given c => Some (PVC_to_dict c)
               end /\
  d !! "readOnly" = match Volume.read_only Host PVC v with
                    | Volume.UNSET => None
                    | Volume.Given b => Some (PBool b)
                    end /\
  d !! "subPath" = match Volume.sub_path Host PVC v with
                   | Volume.UNSET => None
                   | Volume.Given s => Some (PStr s)
                   end /\
  (forall key, ~ In key volume_keys -> d !! key = None).
Proof. apply to_dict_lookups. Qed.

(** X16: [from_dict] fails on a dict without [name] and on a dict
    without [mountPath]; and it reads the six known keys only: two dicts
    that agree on those are read alike, so keys it does not know are
    ignored. *)
Theorem from_dict_reads_known_keys :
  (forall d, d !! "name" = None ->
     Volume.from_dict Host PVC Host_from_dict PVC_from_dict d = None) /\
  (forall d, d !! "mountPath" = None ->
     Volume.from_dict Host PVC Host_from_dict PVC_from_dict d = None) /\
  (forall d d' : gmap string pyval,
     (forall key, In key volume_keys -> d !! key = d' !! key) ->
     Volume.from_dict Host PVC Host_from_dict PVC_from_dict d =
     Volume.from_dict Host PVC Host_from_dict PVC_from_dict d') /\
  (forall (d : gmap string pyval) key value,
     ~ In key volume_keys ->
     Volume.from_dict Host PVC Host_from_dict PVC_from_dict (<[key := value]> d) =
     Volume.from_dict Host PVC Host_from_dict PVC_from_dict d).
Proof.
  assert (Hext : forall d d' : gmap string pyval,
            (forall key, In key volume_keys -> d !! key = d' !! key) ->
            Volume.from_dict Host PVC Host_from_dict PVC_from_dict d =
            Volume.from_dict Host PVC Host_from_dict PVC_from_dict d').
  { intros d d' H. rewrite !from_dict_lookups.
    rewrite (H "name"), (H "mountPath"), (H "host"), (H "pvc"), (H "readOnly"), (H "subPath")
      by (unfold volume_keys; simpl; tauto).
    reflexivity. }
  split; [| split; [| split; [exact Hext |]]].
  - intros d H. rewrite from_dict_lookups, H. reflexivity.
  - intros d H. rewrite from_dict_lookups, H. destruct (d !! "name"); reflexivity.
  - intros d key value Hkey. apply Hext. intros k Hk.
    apply lookup_insert_ne. intros <-. contradiction.
Qed.

(** X17: what [from_dict] has read, [to_dict] writes back: when
    [from_dict d] is the volume [v], the dict of [v] agrees with [d] on
    [name], [mountPath], [readOnly] and [subPath], and has [host] and
    [pvc] exactly when [d] has them. *)
Theorem to_dict_after_from_dict (d : gmap string pyval) (v : Volume.Volume Host PVC)
    (Hread : Volume.from_dict Host PVC Host_from_dict PVC_from_dict d = Some v) :
  let d' := Volume.to_dict Host PVC Host_to_dict PVC_to_dict v in
  d' !! "name" = d !! "name" /\
  d' !! "mountPath" = d !! "mountPath" /\
  d' !! "readOnly" = d !! "readOnly" /\
  d' !! "subPath" = d !! "subPath" /\
  (d' !! "host" = None <-> d !! "host" = None) /\
  (d' !! "pvc" = None <-> d !! "pvc" = None).
Proof.
  intros d'. subst d'.
  destruct (to_dict_lookups v) as (Kn & Km & Kh & Kp & Kr & Ks & _).
  cbv zeta in Kn, Km, Kh, Kp, Kr, Ks.
  rewrite Kn, Km, Kh, Kp, Kr, Ks. clear Kn Km Kh Kp Kr Ks.
  rewrite from_dict_lookups in Hread.
  destruct (d !! "name") as [[| | | n | |] |]; try discriminate Hread;
    try (destruct (d !! "mountPath"); discriminate Hread).
  destruct (d !! "mountPath") as [[| | | m | |] |]; try discriminate Hread.
  simpl in Hread.
  destruct (d !! "host") as [vh |]; simpl in Hread;
    [destruct (Host_from_dict vh) as [h |]; simpl in Hread; [| discriminate Hread] |];
    (destruct (d !! "pvc") as [vp |]; simpl in Hread;
     [destruct (PVC_from_dict vp) as [c |]; simpl in Hread; [| discriminate Hread] |];
     (destruct (d !! "readOnly") as [[| b | | | |] |]; simpl in Hread; try discriminate Hread;
      (destruct (d !! "subPath") as [[| | | s | |] |]; simpl in Hread; try discriminate Hread;
       injection Hread as <-; simpl;
       repeat split; intros; try reflexivity; try discriminate))).
Qed.

(** X18: the class default and the wire default of [read_only]
    differ.  A volume built from a name and a mount path alone writes
    [readOnly: false] into its dict; the dict with just the two required
    keys is read back with [read_only] left [UNSET], which is another
    volume. *)
Theorem read_only_defaults_differ (name mount_path : string) :
  let minimal : gmap string pyval :=
    <["mountPath" := PStr mount_path]> (<["name" := PStr name]> ∅) in
  Volume.to_dict Host PVC Host_to_dict PVC_to_dict (Volume.init Host PVC name mount_path) =
    <["readOnly" := PBool false]> minimal /\
  Volume.from_dict Host PVC Host_from_dict PVC_from_dict minimal =
    Some {| Volume.name := name; Volume.mount_path := mount_path;
            Volume.host := Volume.UNSET; Volume.pvc := Volume.UNSET;
            Volume.read_only := Volume.UNSET; Volume.sub_path := Volume.UNSET |} /\
  Volume.from_dict Host PVC Host_from_dict PVC_from_dict minimal <>
    Some (Volume.init Host PVC name mount_path).
Proof.
  intros minimal. subst minimal.
  assert (Hread : Volume.from_dict Host PVC Host_from_dict PVC_from_dict
                    (<["mountPath" := PStr mount_path]> (<["name" := PStr name]> ∅)) =
                  Some {| Volume.name := name; Volume.mount_path := mount_path;
                          Volume.host := Volume.UNSET; Volume.pvc := Volume.UNSET;
                          Volume.read_only := Volume.UNSET; Volume.sub_path := Volume.UNSET |}).
  { rewrite from_dict_lookups. simplify_map_eq. reflexivity. }
  split; [reflexivity |]. split; [exact Hread |].
  rewrite Hread. unfold Volume.init. intros H. discriminate H.
Qed.

End VolumeDicts.

Lemma to_dict_after_from_dict_witness :
  Volume.to_dict HostPath Claim HostPath_to_dict Claim_to_dict data_volume !! "readOnly" =
  (<["comment" := PStr "scratch space"]>
     (Volume.to_dict HostPath Claim HostPath_to_dict Claim_to_dict data_volume)) !! "readOnly".
Proof.
  exact (proj1 (proj2 (proj2
    (to_dict_after_from_dict HostPath Claim HostPath_to_dict HostPath_from_dict
       Claim_to_dict Claim_from_dict
       (<["comment" := PStr "scratch space"]>
          (Volume.to_dict HostPath Claim HostPath_to_dict Claim_to_dict data_volume))
       data_volume eq_refl)))).
Defined.
